(** * Hopper hash router: route ranking, matching, binding and navigation

    A shallow embedding of the three generations of the router that live in
    the repository, and the properties of its specification checked against
    them.

    - [Ranker]  : the first [Router] class of [src/Router.ts] (an array of
                  routes and the public [rank]).
    - [Router]  : the second, complete [Router] class of [src/Router.ts]
                  ([Router.Route], [add], [remove], [#rank], [#chooseBest],
                  [#getUserRouteDetails], [#handleHashChange]).
    - [Part000] : the intermediate [Router] class (public [rank],
                  [#chooseBest] returning a bare string).
    - [Listening] : the sketch of the second unnamed file ([mount],
                  [listen], [off]).

    JavaScript values are modelled as follows.  A [string] is a Rocq
    [string]; every character the code inspects is ASCII, so working on
    code units or on bytes makes no difference.  An array read [a[i]] is a
    list lookup [a !! i : option string], with [None] for [undefined].
    Numbers are integers of [Z].  An object used as a dictionary of values
    ([params], [queries]) is a [gmap]; the route table, whose enumeration
    order matters, is an association list in property-creation order.
    Objects are modelled by their own properties only.  Where a property
    of a run depends on it, the statement asks that the lookups find own
    properties ([own_lookups]); an assignment to [params] under the name
    [__proto__] is modelled as what it is, no binding ([Js.assign]).

    A handler is a function of the event and of the world of the
    application; it returns the world it leaves and how the promise the
    router awaits settles.  Handlers do not reach back into the router, and
    one run of [#handleHashChange] is followed from its start to its end
    with no other run in between. *)

From stdpp Require Import base strings list sorting gmap.
From Stdlib Require Import ZArith Ascii.

Local Open Scope string_scope.
Local Open Scope list_scope.
Local Open Scope Z_scope.

(** ** JavaScript primitives used by the router *)

Module Js.

(** A value of type [string | undefined]. *)
Definition value := option string.

(** [ToBoolean]: [undefined] and the empty string are falsy. *)
Definition truthy (v : value) : bool :=
  match v with
  | Some s => negb (bool_decide (s = EmptyString))
  | None => false
  end.

(** [a === b] on [string | undefined]. *)
Definition strict_eq (a b : value) : bool := bool_decide (a = b).

(** [s.startsWith(c)] for a one-character [c]. *)
Definition startsWith (s : string) (c : ascii) : bool :=
  match s with
  | String c' _ => bool_decide (c' = c)
  | EmptyString => false
  end.

(** [v && v.startsWith(c)], seen as a boolean. *)
Definition and_startsWith (v : value) (c : ascii) : bool :=
  match v with
  | Some s => truthy v && startsWith s c
  | None => false
  end.

(** [s.endsWith(c)] for a one-character [c]. *)
Fixpoint endsWith (s : string) (c : ascii) : bool :=
  match s with
  | EmptyString => false
  | String c' EmptyString => bool_decide (c' = c)
  | String _ rest => endsWith rest c
  end.

(** [s.slice(1)] and [s.substring(1)]. *)
Definition slice1 (s : string) : string :=
  match s with
  | String _ rest => rest
  | EmptyString => EmptyString
  end.

(** [s.slice(0, -1)]. *)
Fixpoint slice_init (s : string) : string :=
  match s with
  | EmptyString => EmptyString
  | String _ EmptyString => EmptyString
  | String c rest => String c (slice_init rest)
  end.

(** [s.split(sep)] for a one-character separator: never empty. *)
Fixpoint split (sep : ascii) (s : string) : list string :=
  match s with
  | EmptyString => [EmptyString]
  | String c rest =>
      if bool_decide (c = sep) then EmptyString :: split sep rest
      else match split sep rest with
           | piece :: pieces => String c piece :: pieces
           | [] => [String c EmptyString]
           end
  end.

(** [a.join(sep)]. *)
Fixpoint join (sep : string) (a : list string) : string :=
  match a with
  | [] => EmptyString
  | [x] => x
  | x :: rest => x +:+ sep +:+ join sep rest
  end.

(** [a.slice(from, to)] for in-range, non-negative bounds. *)
Definition slice {A} (a : list A) (from to : nat) : list A :=
  take (to - from)%nat (drop from a).

(** The control flow of a loop body: fall through to the next iteration
    ([continue] or the end of the body), [break], or [return]. *)
Inductive flow : Type :=
| Continue (score : Z)
| Break (score : Z)
| Return (result : Z).

(** [for (let i = 0; i < n; i++) body], run over the indices [idxs] that
    are still to come. *)
Fixpoint for_loop (body : nat → Z → flow) (idxs : list nat) (score : Z) : flow :=
  match idxs with
  | [] => Continue score
  | i :: rest =>
      match body i score with
      | Continue score' => for_loop body rest score'
      | stop => stop
      end
  end.

(** The value a function ends with when its loop is followed by
    [return score]. *)
Definition returned (f : flow) : Z :=
  match f with
  | Continue score | Break score => score
  | Return result => result
  end.

(** *** Objects used as ordered dictionaries

    An object is the list of its own properties in creation order.
    Assigning to an existing key keeps its place, assigning to a new key
    appends it, [delete] removes it. *)
Abbreviation object V := (list (string * V)).

Definition keys {V} (o : object V) : list string := o.*1.

Fixpoint get {V} (k : string) (o : object V) : option V :=
  match o with
  | [] => None
  | (k', v) :: rest => if bool_decide (k' = k) then Some v else get k rest
  end.

Fixpoint set {V} (k : string) (v : V) (o : object V) : object V :=
  match o with
  | [] => [(k, v)]
  | (k', v') :: rest =>
      if bool_decide (k' = k) then (k, v) :: rest else (k', v') :: set k v rest
  end.

Definition delete {V} (k : string) (o : object V) : object V :=
  filter (λ kv, kv.1 ≠ k) o.

(** A property key is looked up after [ToPropertyKey]: [undefined]
    becomes the string ["undefined"]. *)
Definition toPropertyKey (k : value) : string := default "undefined" k.

(** Array indices are the canonical decimal strings of the integers
    below [2^32 - 1]. *)
Definition digit (c : ascii) : option N :=
  let n := N_of_ascii c in
  if ((48 <=? n) && (n <=? 57))%N then Some (n - 48)%N else None.

Fixpoint digits (s : string) (acc : N) : option N :=
  match s with
  | EmptyString => Some acc
  | String c rest =>
      match digit c with
      | Some d => digits rest (10 * acc + d)%N
      | None => None
      end
  end.

Definition array_index (s : string) : option N :=
  match s with
  | EmptyString => None
  | String "0" EmptyString => Some 0%N
  | String "0" _ => None
  | _ =>
      match digits s 0 with
      | Some n => if (n <? 2 ^ 32 - 1)%N then Some n else None
      | None => None
      end
  end.

Definition is_array_index (s : string) : bool :=
  bool_decide (is_Some (array_index s)).

Definition index_le (k1 k2 : string) : Prop :=
  (default 0 (array_index k1) ≤ default 0 (array_index k2))%N.

#[global] Instance index_le_dec k1 k2 : Decision (index_le k1 k2).
Proof. unfold index_le. apply _. Defined.

(** The order in which [for (const k in o)] visits the own keys of [o]
    (ECMAScript [OrdinaryOwnPropertyKeys]): first the array indices in
    ascending numeric order, then the other strings in creation order. *)
Definition for_in {V} (o : object V) : list string :=
  merge_sort index_le (filter (λ k, is_array_index k = true) (keys o))
  ++ filter (λ k, is_array_index k = false) (keys o).

(** [o[k] = v] on an object literal used as a dictionary of strings.  The
    name [__proto__] is no own key of it: the assignment reaches the setter
    inherited from [Object.prototype], which ignores a string and
    [undefined], and the object is left as it was. *)
Definition assign (k : string) (v : value) (o : gmap string value) : gmap string value :=
  if bool_decide (k = "__proto__") then o else <[k := v]> o.

(** [Object.fromEntries]: a later entry overwrites an earlier one. *)
Definition fromEntries (entries : list (string * string)) : gmap string string :=
  foldl (λ m kv, <[kv.1 := kv.2]> m) ∅ entries.

End Js.

(** ** First generation: [class Router] with an array of routes *)

Module Ranker.

(** [C] stands for the type of the callbacks, which this class stores and
    never calls. *)
Record Route {C : Type} : Type := { segments : list string; callback : C }.
Arguments Route C : clear implicits.

Definition EXACT_MATCH : Z := 3.
Definition PARAMETER_MATCH : Z := 2.
Definition WILDCARD_MATCH : Z := 1.

(** The body of the loop of [rank]. *)
Definition rank_body (route user : list string) (i : nat) (score : Z) : Js.flow :=
  let uc := user !! i in
  let rc := route !! i in
  if Js.strict_eq rc uc then Js.Continue (score + EXACT_MATCH)
  else if Js.and_startsWith rc ":" then Js.Continue (score + PARAMETER_MATCH)
  else if (Z.of_nat i =? Z.of_nat (length route) - 1)
          && Js.truthy rc && Js.strict_eq rc (Some "*") then
    if negb (Js.truthy uc) then Js.Return 0
    else
      let trailLength := Z.of_nat (length user) - Z.of_nat i in
      Js.Break (score + trailLength * WILDCARD_MATCH)
  else if Js.truthy rc && Js.strict_eq rc (Some "*") then
    Js.Continue (score + WILDCARD_MATCH)
  else Js.Return 0.

Definition rank (route user : list string) : Z :=
  Js.returned (Js.for_loop (rank_body route user) (seq 0 (length route)) 0).

(** [add] pushes onto the array, [remove] filters it. *)
Definition add {C} (route : string) (callback : C) (routes : list (Route C)) :
    list (Route C) :=
  routes ++ [{| segments := Js.split "/" route; callback := callback |}].

Definition remove {C} (route : string) (routes : list (Route C)) : list (Route C) :=
  filter (λ r, Js.join "/" (segments r) ≠ route) routes.

End Ranker.

(** ** Intermediate generation: the [Router] of the unnamed source file *)

Module Part000.

Definition EXACT_MATCH : Z := 3.
Definition PARAMETER_MATCH : Z := 2.
Definition WILDCARD_MATCH : Z := 1.

Definition rank_body (route user : list string) (i : nat) (score : Z) : Js.flow :=
  let uc := user !! i in
  let rc := route !! i in
  if Js.strict_eq rc uc then Js.Continue (score + EXACT_MATCH)
  else if Js.and_startsWith rc ":" then Js.Continue (score + PARAMETER_MATCH)
  else if (Z.of_nat i =? Z.of_nat (length route) - 1)
          && Js.truthy rc && Js.strict_eq rc (Some "*") then
    if negb (Js.truthy uc) then Js.Return 0
    else
      let trailLength := Z.of_nat (length user) - 1 - Z.of_nat i in
      Js.Break (score + trailLength * WILDCARD_MATCH)
  else if Js.truthy rc && Js.strict_eq rc (Some "*") then
    Js.Continue (score + WILDCARD_MATCH)
  else Js.Return 0.

Definition rank (route user : list string) : Z :=
  Js.returned (Js.for_loop (rank_body route user) (seq 0 (length route)) 0).

(** The handlers of this generation take no argument and are never called
    by its [#handleHashChange], which only logs; [H] stands for their
    type. *)
Record RouteEntry {H : Type} : Type := {
  entry_string : string;
  segments : list string;
  afterEnter : H;
  beforeExit : H
}.
Arguments RouteEntry H : clear implicits.

Definition chooseBest_body {H} (routes : Js.object (RouteEntry H)) (user : list string)
    (best : Z * string) (route : string) : Z * string :=
  match Js.get route routes with
  | Some entry =>
      let rank := rank (segments entry) user in
      if rank >? best.1 then (rank, route) else best
  | None => best
  end.

(** This [#chooseBest] returns [best[1]] whatever the score. *)
Definition chooseBest {H} (routes : Js.object (RouteEntry H)) (user : list string) : string :=
  (foldl (chooseBest_body routes user) (0, EmptyString) (Js.for_in routes)).2.

End Part000.

(** ** Second generation: the complete [Router] of [src/Router.ts] *)

Module Router.

(** How an awaited handler call ends. *)
Inductive settled : Type :=
| Fulfilled
| Rejected (reason : string).

(** An [async] function body: it either completes or throws, which
    rejects the promise the function returned. *)
Inductive completion (A : Type) : Type :=
| Normal (a : A)
| Throw (reason : string).
Arguments Normal {A} a.
Arguments Throw {A} reason.

Record RouteChangeEvent : Type := {
  path : string;
  params : gmap string Js.value;
  wildcards : list Js.value;
  queries : gmap string string
}.

(** The two handlers of a route. *)
Inductive phase : Type := BeforeExit | AfterEnter.

(** What a run of [#handleHashChange] does to its surroundings, in
    order: the call of [history.replaceState], the start of a handler of
    the entry found under [key], and the settling of the promise the
    router awaits. *)
Inductive call : Type :=
| ReplaceState (url : string)
| Invoke (p : phase) (key : string) (e : RouteChangeEvent)
| Settle (p : phase) (key : string) (r : settled).

(** [window.location]. *)
Record Location : Type := { hash : string; href : string }.

(** [Router.Route]: the pieces of a location hash. *)
Record Route : Type := {
  Route_string : string;
  Route_segments : list string;
  Route_queries : gmap string string
}.

(** [hash.replace(/#\/|#/, '')]: the leftmost [#], with the [/] that
    follows it if there is one, is removed. *)
Fixpoint replace_hash (s : string) : string :=
  match s with
  | EmptyString => EmptyString
  | String c rest =>
      if bool_decide (c = "#"%char) then
        match rest with
        | String "/" rest' => rest'
        | _ => rest
        end
      else String c (replace_hash rest)
  end.

Definition noTrail (hash : string) : string :=
  let noHash := replace_hash hash in
  let noLead := if Js.startsWith noHash "/" then Js.slice1 noHash else noHash in
  if Js.endsWith noLead "/" then Js.slice_init noLead else noLead.

(** [const [route, queryString] = noTrail.split('?')]. *)
Definition route_and_query (hash : string) : string * Js.value :=
  let parts := Js.split "?" (noTrail hash) in
  (default EmptyString (parts !! 0%nat), parts !! 1%nat).

(** *** Ranking *)

Definition EXACT_MATCH : Z := 3.
Definition PARAMETER_MATCH : Z := 2.
Definition WILDCARD_MATCH : Z := 1.

(** The body of the loop of [#rank].  Its last branch adds the wildcard
    score and, having no [continue], goes on to [return 0]. *)
Definition rank_body (route user : list string) (i : nat) (score : Z) : Js.flow :=
  let uc := user !! i in
  let rc := route !! i in
  if Js.strict_eq rc uc then Js.Continue (score + EXACT_MATCH)
  else if Js.and_startsWith rc ":" then Js.Continue (score + PARAMETER_MATCH)
  else if (Z.of_nat i =? Z.of_nat (length route) - 1)
          && Js.truthy rc && Js.strict_eq rc (Some "*") then
    if negb (Js.truthy uc) then Js.Return 0
    else
      let trailLength := Z.of_nat (length user) - 1 - Z.of_nat i in
      Js.Break (score + trailLength * WILDCARD_MATCH)
  else
    let score :=
      if Js.truthy rc && Js.strict_eq rc (Some "*") then score + WILDCARD_MATCH
      else score in
    Js.Return 0.

Definition rank (route user : list string) : Z :=
  Js.returned (Js.for_loop (rank_body route user) (seq 0 (length route)) 0).

(** *** Binding *)

Record details : Type := {
  details_wildcards : list Js.value;
  details_params : gmap string Js.value
}.

(** The body of the loop of [#getUserRouteDetails]; each of its branches
    ends the iteration. *)
Definition details_body (route user : list string) (d : details) (i : nat) : details :=
  let rc := route !! i in
  let uc := user !! i in
  match rc with
  | Some r =>
      if Js.and_startsWith rc ":" then
        {| details_wildcards := details_wildcards d;
           details_params := Js.assign (Js.slice1 r) uc (details_params d) |}
      else if (Z.of_nat i =? Z.of_nat (length route) - 1)
              && Js.strict_eq rc (Some "*") then
        {| details_wildcards :=
             details_wildcards d
             ++ (Some <$> Js.slice user (length route - 1) (length user));
           details_params := details_params d |}
      else if Js.strict_eq rc (Some "*") then
        {| details_wildcards := details_wildcards d ++ [uc];
           details_params := details_params d |}
      else d
  | None => d
  end.

Definition getUserRouteDetails (route user : list string) : details :=
  foldl (details_body route user)
    {| details_wildcards := []; details_params := ∅ |}
    (seq 0 (length route)).

Section Machine.

(** Whatever the handlers of the application act on. *)
Context {World : Type}.

(** [new URLSearchParams(queryString)], a service of the platform,
    seen as the list of its entries. *)
Variable URLSearchParams : string → list (string * string).

Definition Route_new (hash : string) : Route :=
  let '(route, queryString) := route_and_query hash in
  {| Route_queries :=
       match queryString with
       | Some q =>
           if Js.truthy queryString then Js.fromEntries (URLSearchParams q) else ∅
       | None => ∅
       end;
     Route_string := route;
     Route_segments := Js.split "/" route |}.

(** A handler runs on the world of the application; the router awaits
    what it returns. *)
Definition NavigationHandler : Type := RouteChangeEvent → World → World * settled.

Record RouteEntry : Type := {
  entry_string : string;
  segments : list string;
  afterEnter : NavigationHandler;
  beforeExit : NavigationHandler
}.

Record Handlers : Type := {
  handlers_beforeExit : NavigationHandler;
  handlers_afterEnter : NavigationHandler
}.

(** The private fields [#routes] and [#currentRoute]. *)
Record fields : Type := {
  routes : Js.object RouteEntry;
  currentRoute : Js.value
}.

Definition new (startingRoute : Js.value) : fields :=
  {| routes := []; currentRoute := startingRoute |}.

Definition add (hash : string) (handlers : Handlers) (this : fields) : fields :=
  let route := Route_new hash in
  {| routes :=
       Js.set (Route_string route)
         {| entry_string := Route_string route;
            segments := Route_segments route;
            beforeExit := handlers_beforeExit handlers;
            afterEnter := handlers_afterEnter handlers |}
         (routes this);
     currentRoute := currentRoute this |}.

Definition remove (hash : string) (this : fields) : fields :=
  {| routes := Js.delete hash (routes this);
     currentRoute := currentRoute this |}.


(** *** Matching *)

(** One turn of the loop of [#chooseBest]; [route] is an own key of
    [#routes], so its entry is there. *)
Definition chooseBest_body (this : fields) (user : list string)
    (best : Z * string) (route : string) : Z * string :=
  match Js.get route (routes this) with
  | Some entry =>
      let rank := rank (segments entry) user in
      if rank >? best.1 then (rank, route) else best
  | None => best
  end.

Definition chooseBest (this : fields) (user : list string) : Js.value :=
  let best :=
    foldl (chooseBest_body this user) (0, EmptyString) (Js.for_in (routes this)) in
  if bool_decide (best.1 ≠ 0) then Some best.2 else None.

(** *** Live navigation *)

(** The state a run of [#handleHashChange] works on: the fields of the
    router, the world of the handlers, and the calls made so far. *)
Record state : Type := {
  this : fields;
  world : World;
  calls : list call
}.

Definition async (A : Type) : Type := state → state * completion A.

#[global] Instance async_ret : MRet async := λ A a s, (s, Normal a).

#[global] Instance async_bind : MBind async := λ A B k m s,
  match m s with
  | (s', Normal a) => k a s'
  | (s', Throw reason) => (s', Throw reason)
  end.

Definition replaceState (url : string) : async unit :=
  λ s, ({| this := this s; world := world s;
           calls := calls s ++ [ReplaceState url] |}, Normal tt).

(** [await handler(event)], for the handler [p] of the entry found
    under [key]. *)
Definition await (p : phase) (key : string) (handler : NavigationHandler)
    (event : RouteChangeEvent) : async unit :=
  λ s, let '(w, r) := handler event (world s) in
       ({| this := this s; world := w;
           calls := calls s ++ [Invoke p key event; Settle p key r] |},
        match r with
        | Fulfilled => Normal tt
        | Rejected reason => Throw reason
        end).

Definition set_currentRoute (v : Js.value) : async unit :=
  λ s, ({| this := {| routes := routes (this s); currentRoute := v |};
           world := world s; calls := calls s |}, Normal tt).

Definition get_this : async fields := λ s, (s, Normal (this s)).

Definition handleHashChange (location : Location) (noLeave : bool) : async unit :=
  self ← get_this;
  let entering := Route_new (hash location) in
  let matchingRoute := chooseBest self (Route_segments entering) in
  let match_ := Js.get (Js.toPropertyKey matchingRoute) (routes self) in
  let lastMatch := Js.get (Js.toPropertyKey (currentRoute self)) (routes self) in
  let details :=
    getUserRouteDetails
      (match match_ with Some m => segments m | None => [] end)
      (Route_segments entering) in
  let event :=
    {| path := Route_string entering;
       params := details_params details;
       wildcards := details_wildcards details;
       queries := Route_queries entering |} in
  let currentUrl := default EmptyString (Js.split "#" (href location) !! 0%nat) in
  replaceState (currentUrl +:+ "#/" +:+ Route_string entering);;
  match lastMatch with
  | Some l =>
      if negb noLeave
      then await BeforeExit (Js.toPropertyKey (currentRoute self)) (beforeExit l) event
      else mret tt
  | None => mret tt
  end;;
  match match_ with
  | Some m =>
      await AfterEnter (Js.toPropertyKey matchingRoute) (afterEnter m) event;;
      set_currentRoute matchingRoute
  | None =>
      self' ← get_this;
      let r404 := Js.get "404" (routes self') in
      match r404 with
      | Some r => await AfterEnter "404" (afterEnter r) event
      | None => mret tt
      end;;
      set_currentRoute (Some "404")
  end.

(** [load()]. *)
Definition load (location : Location) : async unit :=
  handleHashChange location true.

End Machine.

Arguments NavigationHandler World : clear implicits.
Arguments RouteEntry World : clear implicits.
Arguments Handlers World : clear implicits.
Arguments fields World : clear implicits.
Arguments state World : clear implicits.
Arguments async World A : clear implicits.

(** [set(hash)]: the string it assigns to [window.location.hash]. *)
Definition set (hash : string) : string := "#/" +:+ replace_hash hash.

End Router.

(** ** Vocabulary of the specification *)

(** The three ranking functions of the repository. *)
Inductive ranker : Type :=
| FirstRank      (* [rank] of the first class of src/Router.ts *)
| DraftRank      (* [rank] of the intermediate class *)
| PrivateRank.   (* [#rank] of the complete class of src/Router.ts *)

Definition rank_body_of (v : ranker) : list string → list string → nat → Z → Js.flow :=
  match v with
  | FirstRank => Ranker.rank_body
  | DraftRank => Part000.rank_body
  | PrivateRank => Router.rank_body
  end.

Definition rank_of (v : ranker) : list string → list string → Z :=
  match v with
  | FirstRank => Ranker.rank
  | DraftRank => Part000.rank
  | PrivateRank => Router.rank
  end.

(** The scan of [rank_of v route user] arrives at index [i] with the
    partial score [score]: every earlier index went on to the next one. *)
Definition scanned (v : ranker) (route user : list string) (i : nat) (score : Z) : Prop :=
  Js.for_loop (rank_body_of v route user) (seq 0 i) 0 = Js.Continue score.

(** What a trailing wildcard at index [i] adds for a request of [n]
    segments. *)
Definition trail_of (v : ranker) (n i : nat) : Z :=
  match v with
  | FirstRank => Z.of_nat n - Z.of_nat i
  | DraftRank | PrivateRank => Z.of_nat n - 1 - Z.of_nat i
  end.

(** The rank [#chooseBest] computes for the key [route]. *)
Definition score_in {World} (this : Router.fields World) (user : list string)
    (route : string) : Z :=
  match Js.get route (Router.routes this) with
  | Some entry => Router.rank (Router.segments entry) user
  | None => 0
  end.

(** [k] is the first key of [ks] with the greatest score, and that score is
    positive: every key before it scores strictly less, none after it
    scores more. *)
Definition first_best (f : string → Z) (ks : list string) (k : string) : Prop :=
  ∃ before after,
    ks = before ++ k :: after
    ∧ 0 < f k
    ∧ Forall (λ k', f k' < f k) before
    ∧ Forall (λ k', f k' ≤ f k) after.

(** The rank the [#chooseBest] of the intermediate class computes. *)
Definition draft_score_in {H} (routes : Js.object (Part000.RouteEntry H))
    (user : list string) (route : string) : Z :=
  match Js.get route routes with
  | Some entry => Part000.rank (Part000.segments entry) user
  | None => 0
  end.

(** A handler that completes and leaves the world alone. *)
Definition idle_handler {World} : Router.NavigationHandler World :=
  λ _ w, (w, Router.Fulfilled).

Definition idle_handlers {World} : Router.Handlers World :=
  {| Router.handlers_beforeExit := idle_handler;
     Router.handlers_afterEnter := idle_handler |}.

(** A stand-in for the decoder of query strings where no query occurs. *)
Definition no_entries : string → list (string * string) := λ _, [].

(** *** The Binder in the words of the specification *)

Inductive Segment : Type :=
| SLiteral (text : string)
| SParameter (name : string)
| SWildcard
| STrailingWildcard.

(** A piece that begins with a colon is a parameter, named by what follows
    the colon; a [*] at the final index is a trailing wildcard, a [*]
    elsewhere a wildcard; anything else is a literal. *)
Definition spec_classify (final : bool) (piece : string) : Segment :=
  match piece with
  | String ":" name => SParameter name
  | String "*" EmptyString => if final then STrailingWildcard else SWildcard
  | _ => SLiteral piece
  end.

Fixpoint spec_compile (route : list string) : list Segment :=
  match route with
  | [] => []
  | piece :: rest => spec_classify (bool_decide (rest = [])) piece :: spec_compile rest
  end.

Definition no_details : Router.details :=
  {| Router.details_wildcards := []; Router.details_params := ∅ |}.

Definition bind_param (name : string) (v : Js.value) (d : Router.details) : Router.details :=
  {| Router.details_wildcards := Router.details_wildcards d;
     Router.details_params := <[name := v]> (Router.details_params d) |}.

Definition push_wildcards (vs : list Js.value) (d : Router.details) : Router.details :=
  {| Router.details_wildcards := Router.details_wildcards d ++ vs;
     Router.details_params := Router.details_params d |}.

(** For the pattern index [i]: a parameter binds [params[name]] to the
    request segment at [i]; a wildcard appends the request segment at [i];
    a trailing wildcard appends every request segment from [i] on and
    stops; a literal contributes nothing. *)
Fixpoint spec_bind (pattern : list Segment) (user : list string) (i : nat)
    (d : Router.details) : Router.details :=
  match pattern with
  | [] => d
  | SLiteral _ :: rest => spec_bind rest user (S i) d
  | SParameter name :: rest => spec_bind rest user (S i) (bind_param name (user !! i) d)
  | SWildcard :: rest => spec_bind rest user (S i) (push_wildcards [user !! i] d)
  | STrailingWildcard :: _ => push_wildcards (Some <$> drop i user) d
  end.

(** The binding as the code makes it: the same, but for a parameter named
    [__proto__], which binds nothing. *)
Definition bind_own_param (name : string) (v : Js.value) (d : Router.details) :
    Router.details :=
  {| Router.details_wildcards := Router.details_wildcards d;
     Router.details_params := Js.assign name v (Router.details_params d) |}.

Fixpoint amended_bind (pattern : list Segment) (user : list string) (i : nat)
    (d : Router.details) : Router.details :=
  match pattern with
  | [] => d
  | SLiteral _ :: rest => amended_bind rest user (S i) d
  | SParameter name :: rest =>
      amended_bind rest user (S i) (bind_own_param name (user !! i) d)
  | SWildcard :: rest => amended_bind rest user (S i) (push_wildcards [user !! i] d)
  | STrailingWildcard :: _ => push_wildcards (Some <$> drop i user) d
  end.

(** *** One run of [#handleHashChange], piece by piece *)

Section Navigation.

Context {World : Type}.
Variable URLSearchParams : string → list (string * string).
Variable this : Router.fields World.
Variable location : Router.Location.

Definition entering : Router.Route :=
  Router.Route_new URLSearchParams (Router.hash location).

Definition matchingRoute : Js.value :=
  Router.chooseBest this (Router.Route_segments entering).

Definition match_of : option (Router.RouteEntry World) :=
  Js.get (Js.toPropertyKey matchingRoute) (Router.routes this).

Definition lastMatch_of : option (Router.RouteEntry World) :=
  Js.get (Js.toPropertyKey (Router.currentRoute this)) (Router.routes this).

Definition event_of : Router.RouteChangeEvent :=
  let details :=
    Router.getUserRouteDetails
      (match match_of with Some m => Router.segments m | None => [] end)
      (Router.Route_segments entering) in
  {| Router.path := Router.Route_string entering;
     Router.params := Router.details_params details;
     Router.wildcards := Router.details_wildcards details;
     Router.queries := Router.Route_queries entering |}.

Definition url_of : string :=
  default EmptyString (Js.split "#" (Router.href location) !! 0%nat)
  +:+ "#/" +:+ Router.Route_string entering.

(** The calls of one awaited handler. *)
Definition handler_calls (p : Router.phase) (key : string) (r : Router.settled) :
    list Router.call :=
  [Router.Invoke p key event_of; Router.Settle p key r].

(** The exit step, from the world [w]: the world it leaves, the calls it
    makes, and how it ends. *)
Definition exit_step (noLeave : bool) (w : World) :
    World * list Router.call * Router.settled :=
  match lastMatch_of with
  | Some l =>
      if noLeave then (w, [], Router.Fulfilled)
      else
        let '(w', r) := Router.beforeExit l event_of w in
        (w', handler_calls Router.BeforeExit
               (Js.toPropertyKey (Router.currentRoute this)) r, r)
  | None => (w, [], Router.Fulfilled)
  end.

Definition with_currentRoute (v : Js.value) : Router.fields World :=
  {| Router.routes := Router.routes this; Router.currentRoute := v |}.

End Navigation.

Definition is_handler_call (p : Router.phase) (c : Router.call) : Prop :=
  match c with
  | Router.Invoke p' _ _ | Router.Settle p' _ _ => p' = p
  | Router.ReplaceState _ => False
  end.

(** The names every object inherits from [Object.prototype].  A lookup
    under one of them finds the inherited member when the object has no
    own property of that name, and an assignment under [__proto__]
    replaces the prototype and makes no own property. *)
Definition inherited_names : list string :=
  ["constructor"; "__defineGetter__"; "__defineSetter__"; "hasOwnProperty";
   "__lookupGetter__"; "__lookupSetter__"; "isPrototypeOf"; "propertyIsEnumerable";
   "toString"; "valueOf"; "__proto__"; "toLocaleString"].

(** The lookups of a run find what the own properties hold: [#routes] has
    no key [__proto__], and, when the run may call an exit handler,
    [#currentRoute] names an own key of [#routes] or no inherited member. *)
Definition own_lookups {World} (this : Router.fields World) (noLeave : bool) : Prop :=
  Js.get "__proto__" (Router.routes this) = None
  ∧ (noLeave = false →
     is_Some (Js.get (Js.toPropertyKey (Router.currentRoute this)) (Router.routes this))
     ∨ Js.toPropertyKey (Router.currentRoute this) ∉ inherited_names).

(** *** Handlers and routers of the examples

    The world of the examples is the list of the notes the handlers have
    left, in order. *)

Definition noting (note : string) : Router.NavigationHandler (list string) :=
  λ _ w, (w ++ [note], Router.Fulfilled).

Definition failing (reason : string) : Router.NavigationHandler (list string) :=
  λ _ w, (w, Router.Rejected reason).

Definition on_route (exit enter : Router.NavigationHandler (list string)) :
    Router.Handlers (list string) :=
  {| Router.handlers_beforeExit := exit; Router.handlers_afterEnter := enter |}.

Definition at_hash (h : string) : Router.Location :=
  {| Router.hash := h; Router.href := "http://host/" +:+ h |}.

Definition fresh (this : Router.fields (list string)) : Router.state (list string) :=
  {| Router.this := this; Router.world := []; Router.calls := [] |}.

(** Routes [a] and [b], with [a] active. *)
Definition router_ab (exit_a : Router.NavigationHandler (list string)) :
    Router.fields (list string) :=
  Router.add no_entries "b" (on_route (noting "exit b") (noting "enter b"))
    (Router.add no_entries "a" (on_route exit_a (noting "enter a"))
       (Router.new (Some "a"))).

(** A router whose only route is the fallback [404]. *)
Definition router_404 : Router.fields (list string) :=
  Router.add no_entries "404" (on_route (noting "exit 404") (noting "enter 404"))
    (Router.new None).

(** The character [c] occurs in [s]. *)
Fixpoint contains (c : ascii) (s : string) : bool :=
  match s with
  | EmptyString => false
  | String c' rest => bool_decide (c' = c) || contains c rest
  end.

(** ** The listening sketch: the [Router] class of the second unnamed file

    [window] is seen as the list of the callbacks registered for
    [hashchange], each known by its identity, together with the next
    identity not yet in use: evaluating an arrow function makes a function
    object that is equal to no earlier one.  The timer of [mount] and the
    logging [#handleHashChange] are left out. *)

Module Listening.

Record Window : Type := { listeners : list nat; unused : nat }.

(** [e => this.#handleHashChange(e)]: a new function object. *)
Definition arrow (w : Window) : nat * Window :=
  (unused w, {| listeners := listeners w; unused := S (unused w) |}).

(** [window.addEventListener('hashchange', callback)]: a callback that is
    registered already is not registered again. *)
Definition addEventListener (callback : nat) (w : Window) : Window :=
  if bool_decide (callback ∈ listeners w) then w
  else {| listeners := listeners w ++ [callback]; unused := unused w |}.

(** [window.removeEventListener('hashchange', callback)]. *)
Definition removeEventListener (callback : nat) (w : Window) : Window :=
  {| listeners := filter (λ c, c ≠ callback) (listeners w); unused := unused w |}.

(** The private field [#listening]. *)
Record fields : Type := { listening : bool }.

Definition listen (this : fields) (w : Window) : fields * Window :=
  if negb (listening this) then
    let '(callback, w) := arrow w in
    ({| listening := true |}, addEventListener callback w)
  else (this, w).

Definition off (this : fields) (w : Window) : fields * Window :=
  if listening this then
    let '(callback, w) := arrow w in
    ({| listening := false |}, removeEventListener callback w)
  else (this, w).

(** [hash.replace('#', '#/')]: the leftmost [#] becomes [#/]. *)
Fixpoint replace_sharp (s : string) : string :=
  match s with
  | EmptyString => EmptyString
  | String c rest =>
      if bool_decide (c = "#"%char) then String "#" (String "/" rest)
      else String c (replace_sharp rest)
  end.

(** What [mount] assigns to [window.location.hash], when it assigns. *)
Definition mount (hash : string) : option string :=
  if negb (String.prefix "#/" hash) then Some (replace_sharp hash) else None.

(** What [#handleHashChange] logs for the hash [hash]: the route and the
    queries, cut out with the regular expression of [Router.Route]. *)
Definition handleHashChange (URLSearchParams : string → list (string * string))
    (hash : string) : Js.value * gmap string string :=
  let parts := Js.split "?" (Router.replace_hash hash) in
  let route := parts !! 0%nat in
  let queryString := parts !! 1%nat in
  (route,
   match queryString with
   | Some q => if Js.truthy queryString then Js.fromEntries (URLSearchParams q) else ∅
   | None => ∅
   end).

End Listening.


(** Every registered callback is a function that exists already. *)
Definition window_ok (w : Listening.Window) : Prop :=
  Forall (λ c, (c < Listening.unused w)%nat) (Listening.listeners w).

(** The routers a program can build: a new one, then any [add]s and
    [remove]s. *)
Inductive built {World} (usp : string → list (string * string)) :
    Router.fields World → Prop :=
| built_new startingRoute : built usp (Router.new startingRoute)
| built_add hash handlers this :
    built usp this → built usp (Router.add usp hash handlers this)
| built_remove hash this :
    built usp this → built usp (Router.remove hash this).

(** * Properties *)

(** ** Loops *)

Lemma for_loop_app body l1 l2 score :
  Js.for_loop body (l1 ++ l2) score =
  match Js.for_loop body l1 score with
  | Js.Continue score' => Js.for_loop body l2 score'
  | stop => stop
  end.
Proof.
  revert score. induction l1 as [|i l1 IH]; intros score; simpl; [done|].
  destruct (body i score); auto.
Qed.

Lemma rank_of_unfold v route user :
  rank_of v route user =
  Js.returned (Js.for_loop (rank_body_of v route user) (seq 0 (length route)) 0).
Proof. by destruct v. Qed.

(** The scan of a route of [i + 1 + n] segments that arrives at [i]. *)
Lemma rank_of_at v route user i score :
  (i < length route)%nat →
  scanned v route user i score →
  rank_of v route user =
  Js.returned
    match rank_body_of v route user i score with
    | Js.Continue score' =>
        Js.for_loop (rank_body_of v route user) (seq (S i) (length route - S i)) score'
    | stop => stop
    end.
Proof.
  intros Hi Hscan. rewrite rank_of_unfold.
  replace (length route) with (i + S (length route - S i))%nat at 1 by lia.
  rewrite seq_app, for_loop_app, Hscan. simpl.
  by destruct (rank_body_of v route user i score).
Qed.

Lemma scanned_step v route user i score score' :
  scanned v route user i score →
  rank_body_of v route user i score = Js.Continue score' →
  scanned v route user (S i) score'.
Proof.
  unfold scanned. intros Hscan Hbody.
  by rewrite seq_S, for_loop_app, Hscan; simpl; rewrite Hbody.
Qed.

(** ** The ranking loop, branch by branch *)

Lemma and_startsWith_Some s c : Js.and_startsWith (Some s) c = Js.startsWith s c.
Proof. by destruct s. Qed.

Ltac unfold_body :=
  unfold rank_body_of, Ranker.rank_body, Part000.rank_body, Router.rank_body,
    Js.strict_eq, Ranker.EXACT_MATCH, Ranker.PARAMETER_MATCH, Ranker.WILDCARD_MATCH,
    Part000.EXACT_MATCH, Part000.PARAMETER_MATCH, Part000.WILDCARD_MATCH,
    Router.EXACT_MATCH, Router.PARAMETER_MATCH, Router.WILDCARD_MATCH.

Lemma body_exact v route user i score rc :
  route !! i = Some rc → user !! i = Some rc →
  rank_body_of v route user i score = Js.Continue (score + 3).
Proof.
  intros Hr Hu. destruct v; unfold_body; rewrite Hr, Hu;
    by rewrite bool_decide_eq_true_2.
Qed.

Lemma body_parameter v route user i score rc :
  route !! i = Some rc → user !! i ≠ Some rc → Js.startsWith rc ":" = true →
  rank_body_of v route user i score = Js.Continue (score + 2).
Proof.
  intros Hr Hu Hp. destruct v; unfold_body; rewrite Hr;
    rewrite bool_decide_eq_false_2 by congruence;
    by rewrite and_startsWith_Some, Hp.
Qed.

Lemma body_no_branch v route user i score rc :
  route !! i = Some rc → user !! i ≠ Some rc → Js.startsWith rc ":" = false →
  rc ≠ "*" →
  rank_body_of v route user i score = Js.Return 0.
Proof.
  intros Hr Hu Hp Hw. destruct v; unfold_body; rewrite Hr;
    rewrite bool_decide_eq_false_2 by congruence;
    rewrite and_startsWith_Some, Hp;
    rewrite (bool_decide_eq_false_2 (Some rc = Some "*")) by congruence;
    by rewrite !andb_false_r.
Qed.

Lemma body_trailing_absent v route user i score :
  length route = S i → route !! i = Some "*" → Js.truthy (user !! i) = false →
  rank_body_of v route user i score = Js.Return 0.
Proof.
  intros Hlen Hr Hu.
  assert (user !! i ≠ Some "*") as Hne by (intros E; by rewrite E in Hu).
  assert ((Z.of_nat i =? Z.of_nat (length route) - 1) = true) as Hlast
    by (apply Z.eqb_eq; lia).
  destruct v; unfold_body; rewrite Hr, Hlast, Hu;
    by rewrite bool_decide_eq_false_2 by congruence.
Qed.

Lemma body_trailing_present v route user i score u :
  length route = S i → route !! i = Some "*" →
  user !! i = Some u → u ≠ EmptyString → u ≠ "*" →
  rank_body_of v route user i score =
  Js.Break (score + trail_of v (length user) i * 1).
Proof.
  intros Hlen Hr Hu Hne Hstar.
  assert ((Z.of_nat i =? Z.of_nat (length route) - 1) = true) as Hlast
    by (apply Z.eqb_eq; lia).
  destruct v; unfold_body; rewrite Hr, Hu, Hlast;
    rewrite bool_decide_eq_false_2 by congruence;
    simpl; by rewrite (bool_decide_eq_false_2 (u = EmptyString)) by done.
Qed.

(** A [*] before the last index, in the two public [rank]s. *)
Lemma body_wildcard_continue v route user i score :
  v ≠ PrivateRank →
  length route ≠ S i → route !! i = Some "*" → user !! i ≠ Some "*" →
  rank_body_of v route user i score = Js.Continue (score + 1).
Proof.
  intros Hv Hlen Hr Hu.
  assert ((Z.of_nat i =? Z.of_nat (length route) - 1) = false) as Hlast
    by (apply Z.eqb_neq; lia).
  destruct v; [| |done]; unfold_body; rewrite Hr, Hlast;
    by rewrite bool_decide_eq_false_2 by congruence.
Qed.

(** A [*] before the last index, in [#rank]. *)
Lemma body_wildcard_private route user i score :
  length route ≠ S i → route !! i = Some "*" → user !! i ≠ Some "*" →
  Router.rank_body route user i score = Js.Return 0.
Proof.
  intros Hlen Hr Hu.
  assert ((Z.of_nat i =? Z.of_nat (length route) - 1) = false) as Hlast
    by (apply Z.eqb_neq; lia).
  unfold_body; rewrite Hr, Hlast;
    by rewrite bool_decide_eq_false_2 by congruence.
Qed.

(** ** The Ranker *)

(** C7.  In each of the three ranking functions, at an index [i] the scan
    arrives at with partial score [score], in the order of the code: a
    request segment equal to the pattern segment adds 3 and the scan goes
    on; otherwise a pattern segment that starts with a colon adds 2 and the
    scan goes on, whether the request has a segment at [i] or not;
    otherwise, when the pattern segment is no wildcard either, the function
    returns 0 at once, whatever the partial score was.  The score the scan
    has when it has gone through the whole pattern is the value the
    function returns; so at the last index an exact match makes it return
    [score + 3] and a parameter [score + 2]. *)
Theorem rank_segment_scores v route user i score rc :
  route !! i = Some rc →
  scanned v route user i score →
  (user !! i = Some rc → scanned v route user (S i) (score + 3))
  ∧ (user !! i ≠ Some rc → Js.startsWith rc ":" = true →
     scanned v route user (S i) (score + 2))
  ∧ (user !! i ≠ Some rc → Js.startsWith rc ":" = false → rc ≠ "*" →
     rank_of v route user = 0)
  ∧ (∀ total, scanned v route user (length route) total → rank_of v route user = total)
  ∧ (length route = S i → user !! i = Some rc → rank_of v route user = score + 3)
  ∧ (length route = S i → user !! i ≠ Some rc → Js.startsWith rc ":" = true →
     rank_of v route user = score + 2).
Proof.
  intros Hr Hscan.
  assert (∀ total, scanned v route user (length route) total →
                   rank_of v route user = total) as Hreturn.
  { intros total Htotal. rewrite rank_of_unfold. unfold scanned in Htotal.
    by rewrite Htotal. }
  split_and!.
  - intros Hu. eapply scanned_step; [done|]. by eapply body_exact.
  - intros Hu Hp. eapply scanned_step; [done|]. by eapply body_parameter.
  - intros Hu Hp Hw.
    rewrite (rank_of_at v route user i score); [|by eapply lookup_lt_Some|done].
    by erewrite body_no_branch.
  - done.
  - intros Hlen Hu. apply Hreturn. rewrite Hlen.
    eapply scanned_step; [done|]. by eapply body_exact.
  - intros Hlen Hu Hp. apply Hreturn. rewrite Hlen.
    eapply scanned_step; [done|]. by eapply body_parameter.
Qed.

(** A parameter scores 2 against a request that has run out of segments,
    which makes [#rank] return 5 here, and a literal mismatch after a
    partial score of 3 gives 0. *)
Lemma rank_segment_scores_witness :
  scanned PrivateRank ["user"; ":id"] ["user"] 2 (3 + 2)
  ∧ Router.rank ["user"; ":id"] ["user"] = 3 + 2
  ∧ Router.rank ["user"; "42"] ["user"; "42"] = 3 + 3
  ∧ rank_of PrivateRank ["user"; "settings"] ["user"; "profile"] = 0.
Proof.
  pose proof (rank_segment_scores PrivateRank ["user"; ":id"] ["user"] 1 3 ":id"
                eq_refl eq_refl) as (_ & Hparam & _ & _ & _ & Hlast).
  pose proof (rank_segment_scores PrivateRank ["user"; "42"] ["user"; "42"] 1 3 "42"
                eq_refl eq_refl) as (_ & _ & _ & _ & Hexact & _).
  pose proof (rank_segment_scores PrivateRank ["user"; "settings"] ["user"; "profile"]
                1 3 "settings" eq_refl eq_refl) as (_ & _ & Hzero & _).
  split_and!.
  - apply Hparam; [discriminate|reflexivity].
  - apply Hlast; [reflexivity|discriminate|reflexivity].
  - apply Hexact; reflexivity.
  - apply Hzero; [discriminate|reflexivity|discriminate].
Defined.

(** The list the first class logs at the end of its file: each route
    ranked against [user/102954782/hello]. *)
Lemma Ranker_demo :
  map (λ route, Ranker.rank (Js.split "/" route) (Js.split "/" "user/102954782/hello"))
    ["user/:id"; "user/*"; "user/*/test/*"; "user/settings/:page"; "user/*/hello";
     "*/*/hello"; "*//hello"; "user/102954782/hello/*"]
  = [5; 5; 0; 0; 7; 5; 0; 0].
Proof. reflexivity. Qed.

(** C1, as the code has it.  Let the last segment of the pattern, at index
    [i], be [*], and let the scan arrive there with partial score [score].
    When the request has no segment at [i], or an empty one, the function
    returns 0.  When the request segment is [*] itself it is an exact match
    and scores 3.  Otherwise the scan stops at once and the result is
    [score] plus [length user - i] in the first [rank], and [score] plus
    [length user - 1 - i] in the later [rank] and in [#rank]. *)
Theorem rank_trailing_wildcard v route user i score :
  length route = S i →
  route !! i = Some "*" →
  scanned v route user i score →
  (Js.truthy (user !! i) = false → rank_of v route user = 0)
  ∧ (user !! i = Some "*" → rank_of v route user = score + 3)
  ∧ (∀ u, user !! i = Some u → u ≠ EmptyString → u ≠ "*" →
       rank_of v route user = score + trail_of v (length user) i).
Proof.
  intros Hlen Hr Hscan.
  assert (i < length route)%nat as Hi by lia.
  rewrite (rank_of_at v route user i score Hi Hscan).
  replace (length route - S i)%nat with 0%nat by lia. simpl.
  split_and!.
  - intros Hu. by rewrite body_trailing_absent.
  - intros Hu. by erewrite body_exact.
  - intros u Hu Hne Hstar. erewrite body_trailing_present by done. simpl. lia.
Qed.

Lemma rank_trailing_wildcard_witness :
  rank_of FirstRank ["user"; "*"] ["user"; "settings"; "edit"] = 3 + (3 - 1)
  ∧ rank_of PrivateRank ["user"; "*"] ["user"; "settings"; "edit"] = 3 + (3 - 1 - 1)
  ∧ rank_of PrivateRank ["user"; "*"] ["user"] = 0.
Proof.
  split_and!.
  - apply (proj2 (proj2 (rank_trailing_wildcard FirstRank ["user"; "*"]
                           ["user"; "settings"; "edit"] 1 3 eq_refl eq_refl eq_refl))
             "settings"); [reflexivity | discriminate | discriminate].
  - apply (proj2 (proj2 (rank_trailing_wildcard PrivateRank ["user"; "*"]
                           ["user"; "settings"; "edit"] 1 3 eq_refl eq_refl eq_refl))
             "settings"); [reflexivity | discriminate | discriminate].
  - apply (proj1 (rank_trailing_wildcard PrivateRank ["user"; "*"] ["user"] 1 3
                    eq_refl eq_refl eq_refl)); reflexivity.
Defined.

(** C1 fails as it is written.  Against the pattern [user/*] the request
    [user/settings/edit] has two segments from index 1 on, yet [#rank] and
    the later [rank] add 1, not 2; and the request [user//a] has a segment
    at index 1, the empty one, yet all three functions return 0. *)
Lemma rank_trailing_wildcard_counterexample :
  let route := ["user"; "*"] in
  let user := ["user"; "settings"; "edit"] in
  let user' := ["user"; EmptyString; "a"] in
  scanned PrivateRank route user 1 3
  ∧ Router.rank route user = 3 + 1
  ∧ Part000.rank route user = 3 + 1
  ∧ Router.rank route user ≠ 3 + 1 * (Z.of_nat (length user) - 1)
  ∧ user' !! 1%nat = Some EmptyString
  ∧ Ranker.rank route user' = 0
  ∧ Router.rank route user' = 0
  ∧ Part000.rank route user' = 0.
Proof. by vm_compute. Qed.

(** In the two public [rank]s a [*] before the last index, against a
    request segment that is not [*] itself, adds 1 and the scan goes on. *)
Lemma rank_wildcard_continues v route user i score :
  v ≠ PrivateRank →
  length route ≠ S i → route !! i = Some "*" → user !! i ≠ Some "*" →
  scanned v route user i score →
  scanned v route user (S i) (score + 1).
Proof.
  intros Hv Hlen Hr Hu Hscan. eapply scanned_step; [done|].
  by apply body_wildcard_continue.
Qed.

(** [#rank] rejects at such a [*], whatever follows. *)
Lemma rank_wildcard_private_rejects route user i score :
  length route ≠ S i → route !! i = Some "*" → user !! i ≠ Some "*" →
  scanned PrivateRank route user i score →
  Router.rank route user = 0.
Proof.
  intros Hlen Hr Hu Hscan.
  change (rank_of PrivateRank route user = 0).
  rewrite (rank_of_at PrivateRank route user i score);
    [|by eapply lookup_lt_Some|done].
  simpl. by rewrite body_wildcard_private.
Qed.

(** C2 does not hold of [#rank].  The pattern [user/*/hello] has a [*] at
    index 1, before the last index; against the request [user/x/hello] the
    two public [rank]s score 3 + 1 + 3, and [#rank] returns 0. *)
Theorem rank_wildcard_private_fails :
  let route := ["user"; "*"; "hello"] in
  let user := ["user"; "x"; "hello"] in
  scanned PrivateRank route user 1 3
  ∧ Router.rank_body route user 1 3 = Js.Return 0
  ∧ Router.rank route user = 0
  ∧ Ranker.rank route user = 7
  ∧ Part000.rank route user = 7.
Proof. by vm_compute. Qed.

(** ** Objects *)

Lemma get_is_Some {V} (o : Js.object V) k : k ∈ Js.keys o → is_Some (Js.get k o).
Proof.
  unfold Js.keys. induction o as [|[k' v] o IH]; simpl.
  - by intros ?%elem_of_nil.
  - intros [->|Hin]%elem_of_cons; case_bool_decide; eauto; done.
Qed.

Lemma get_set_eq {V} (o : Js.object V) k v : Js.get k (Js.set k v o) = Some v.
Proof.
  induction o as [|[k' v'] o IH]; simpl.
  - by rewrite bool_decide_eq_true_2.
  - case_bool_decide; simpl.
    + by rewrite bool_decide_eq_true_2.
    + by rewrite bool_decide_eq_false_2.
Qed.

Lemma get_delete_ne {V} (o : Js.object V) k k' :
  k ≠ k' → Js.get k (Js.delete k' o) = Js.get k o.
Proof.
  intros Hne. unfold Js.delete. induction o as [|[k0 v] o IH]; [done|].
  rewrite filter_cons. simpl. case_decide; simpl.
  - by rewrite IH.
  - case_bool_decide; [|done]. destruct (decide (k0 = k')); congruence.
Qed.

Lemma get_delete_eq {V} (o : Js.object V) k : Js.get k (Js.delete k o) = None.
Proof.
  unfold Js.delete. induction o as [|[k0 v] o IH]; [done|].
  rewrite filter_cons. simpl. case_decide; simpl; [|done].
  by rewrite bool_decide_eq_false_2.
Qed.

Lemma for_in_Permutation {V} (o : Js.object V) : Js.for_in o ≡ₚ Js.keys o.
Proof.
  unfold Js.for_in. rewrite merge_sort_Permutation.
  induction (Js.keys o) as [|k ks IH]; [done|].
  rewrite !filter_cons. destruct (Js.is_array_index k).
  - rewrite decide_True, decide_False by done. simpl. by rewrite IH.
  - rewrite decide_False, decide_True by done.
    by rewrite <- Permutation_middle, IH.
Qed.

Lemma for_in_insertion_order {V} (o : Js.object V) :
  Forall (λ k, Js.array_index k = None) (Js.keys o) →
  Js.for_in o = Js.keys o.
Proof.
  unfold Js.for_in. intros Hall.
  assert (filter (λ k, Js.is_array_index k = true) (Js.keys o) = []
          ∧ filter (λ k, Js.is_array_index k = false) (Js.keys o) = Js.keys o)
    as [-> ->]; [|done].
  induction Hall as [|k ks Hk _ [IH1 IH2]]; [done|].
  assert (Js.is_array_index k = false) as Hb.
  { unfold Js.is_array_index. apply bool_decide_eq_false_2.
    rewrite Hk. by intros [? ?]. }
  rewrite !filter_cons, Hb, decide_False, decide_True by done.
  by rewrite IH1, IH2.
Qed.

(** ** The Matcher *)

Lemma first_best_fold (f : string → Z) ks b kb :
  let best := foldl (λ best k, if f k >? best.1 then (f k, k) else best) (b, kb) ks in
  (best = (b, kb) ∧ Forall (λ k, f k ≤ b) ks)
  ∨ (∃ before after,
       ks = before ++ best.2 :: after ∧ best.1 = f best.2 ∧ b < f best.2
       ∧ Forall (λ k', f k' < f best.2) before
       ∧ Forall (λ k', f k' ≤ f best.2) after).
Proof.
  revert b kb. induction ks as [|k ks IH]; intros b kb; simpl.
  - left. by split.
  - destruct (Z.gtb_spec (f k) b) as [Hgt|Hle].
    + destruct (IH (f k) k) as [[-> Hall]|(before & after & Hks & Hb1 & Hb2 & Hbef & Haft)].
      * right. exists [], ks. simpl. split_and!; try done; lia.
      * right. exists (k :: before), after. rewrite Hks at 1.
        split_and!; try done; try lia. constructor; [lia|done].
    + destruct (IH b kb) as [[-> Hall]|(before & after & Hks & Hb1 & Hb2 & Hbef & Haft)].
      * left. split; [done|]. by constructor.
      * right. exists (k :: before), after. rewrite Hks at 1.
        split_and!; try done. constructor; [lia|done].
Qed.

Lemma chooseBest_fold {World} (this : Router.fields World) user ks best :
  Forall (λ k, is_Some (Js.get k (Router.routes this))) ks →
  foldl (Router.chooseBest_body this user) best ks =
  foldl (λ best k, if score_in this user k >? best.1 then (score_in this user k, k) else best)
    best ks.
Proof.
  intros Hks. revert best. induction Hks as [|k ks [e He] _ IH]; intros best; [done|].
  simpl. rewrite <- IH. f_equal.
  unfold Router.chooseBest_body, score_in. by rewrite He.
Qed.

Lemma for_in_get {V} (o : Js.object V) :
  Forall (λ k, is_Some (Js.get k o)) (Js.for_in o).
Proof.
  apply Forall_forall. intros k Hk. apply get_is_Some.
  by rewrite <- (for_in_Permutation o).
Qed.

(** C4, as the code has it.  [#chooseBest] visits the keys of [#routes] in
    the order of [for ... in]: the keys that are array indices (such as
    [404]) first, in ascending numeric order, then the other keys in the
    order they were added; when no key is an array index this is the order
    of insertion.  It returns a key exactly when some score is positive,
    and then the first key visited among those with the greatest score;
    otherwise it returns [undefined]. *)
Theorem chooseBest_first_best {World} (this : Router.fields World) user :
  (Forall (λ k, Js.array_index k = None) (Js.keys (Router.routes this)) →
   Js.for_in (Router.routes this) = Js.keys (Router.routes this))
  ∧ match Router.chooseBest this user with
    | Some k => first_best (score_in this user) (Js.for_in (Router.routes this)) k
    | None => Forall (λ k, score_in this user k ≤ 0) (Js.for_in (Router.routes this))
    end.
Proof.
  split; [apply for_in_insertion_order|].
  unfold Router.chooseBest.
  rewrite chooseBest_fold by apply for_in_get.
  destruct (first_best_fold (score_in this user) (Js.for_in (Router.routes this))
              0 EmptyString)
    as [[-> Hall]|(before & after & Hks & Hb1 & Hb2 & Hbef & Haft)]; simpl.
  - done.
  - rewrite bool_decide_eq_true_2 by lia.
    exists before, after. split_and!; try done; lia.
Qed.

(** Two routes that tie on [user/42]: the one added first wins. *)
Lemma chooseBest_first_best_witness :
  let this :=
    Router.add no_entries "user/:name" idle_handlers
      (Router.add no_entries "user/:id" idle_handlers (Router.new (World := unit) None)) in
  Js.for_in (Router.routes this) = ["user/:id"; "user/:name"]
  ∧ first_best (score_in this ["user"; "42"]) (Js.for_in (Router.routes this)) "user/:id".
Proof.
  intros this. split.
  - apply (proj1 (chooseBest_first_best this ["user"; "42"])).
    repeat constructor.
  - apply (proj2 (chooseBest_first_best this ["user"; "42"])).
Defined.

(** C4 fails as it is written.  The routes [:a/*] and [7] are added in this
    order and both score 3 on the request [7/a/b]; the key [7] is an array
    index, so the loop visits it first, and the route added last wins the
    tie. *)
Lemma chooseBest_counterexample :
  let this :=
    Router.add no_entries "7" idle_handlers
      (Router.add no_entries ":a/*" idle_handlers (Router.new (World := unit) None)) in
  let user := Router.Route_segments (Router.Route_new no_entries "#/7/a/b") in
  user = ["7"; "a"; "b"]
  ∧ Js.keys (Router.routes this) = [":a/*"; "7"]
  ∧ score_in this user ":a/*" = 3
  ∧ score_in this user "7" = 3
  ∧ Router.chooseBest this user = Some "7".
Proof. by vm_compute. Qed.

(** The [#chooseBest] of the intermediate class scans in the same way and
    returns [best[1]] as it is: the first key with the greatest score when
    one is positive, and otherwise the empty string, which is also the key
    of the route [/]. *)
Lemma draft_chooseBest_first_best {H} (routes : Js.object (Part000.RouteEntry H)) user :
  first_best (draft_score_in routes user) (Js.for_in routes) (Part000.chooseBest routes user)
  ∨ (Part000.chooseBest routes user = EmptyString
     ∧ Forall (λ k, draft_score_in routes user k ≤ 0) (Js.for_in routes)).
Proof.
  unfold Part000.chooseBest.
  assert (∀ ks best,
            Forall (λ k, is_Some (Js.get k routes)) ks →
            foldl (Part000.chooseBest_body routes user) best ks
            = foldl (λ best k, if draft_score_in routes user k >? best.1
                               then (draft_score_in routes user k, k) else best)
                best ks) as Hfold.
  { intros ks best Hks. revert best.
    induction Hks as [|k ks [e He] _ IH]; intros best; [done|].
    simpl. rewrite <- IH. f_equal.
    unfold Part000.chooseBest_body, draft_score_in. by rewrite He. }
  rewrite Hfold by apply for_in_get.
  destruct (first_best_fold (draft_score_in routes user) (Js.for_in routes) 0 EmptyString)
    as [[-> Hall]|(before & after & Hks & Hb1 & Hb2 & Hbef & Haft)]; simpl.
  - by right.
  - left. exists before, after. split_and!; try done; lia.
Qed.

(** ** The Binder *)

Lemma spec_classify_eq final piece :
  spec_classify final piece
  = if Js.startsWith piece ":" then SParameter (Js.slice1 piece)
    else if bool_decide (piece = "*") then
      if final then STrailingWildcard else SWildcard
    else SLiteral piece.
Proof.
  destruct piece as [|c piece]; [done|].
  destruct (decide (c = ":"%char)) as [->|Hc]; [done|].
  simpl Js.startsWith. rewrite (bool_decide_eq_false_2 (c = ":"%char)) by done.
  destruct (decide (c = "*"%char)) as [->|Hs].
  - destruct piece; [done|]. by rewrite bool_decide_eq_false_2.
  - rewrite bool_decide_eq_false_2 by congruence.
    destruct c as [[] [] [] [] [] [] [] []]; done.
Qed.

Lemma details_loop_spec user before rest d :
  foldl (Router.details_body (before ++ rest) user) d (seq (length before) (length rest))
  = amended_bind (spec_compile rest) user (length before) d.
Proof.
  revert before d. induction rest as [|piece rest IH]; intros before d; [done|].
  simpl seq. simpl foldl.
  specialize (IH (before ++ [piece])).
  rewrite <- app_assoc, length_app in IH. simpl in IH.
  replace (length before + 1)%nat with (S (length before)) in IH by lia.
  rewrite IH. clear IH. simpl spec_compile.
  rewrite spec_classify_eq. unfold Router.details_body.
  rewrite list_lookup_middle by done.
  rewrite and_startsWith_Some.
  destruct (Js.startsWith piece ":"); [done|].
  unfold Js.strict_eq.
  destruct (decide (piece = "*")) as [->|Hne].
  - rewrite (bool_decide_eq_true_2 (Some "*" = Some "*")) by done.
    rewrite (bool_decide_eq_true_2 ("*" = "*")) by done.
    destruct rest as [|piece' rest].
    + rewrite length_app. simpl length.
      replace (Z.of_nat (length before) =? Z.of_nat (length before + 1) - 1)
        with true by (symmetry; apply Z.eqb_eq; lia).
      simpl. unfold push_wildcards, Js.slice. do 3 f_equal.
      replace (length before + 1 - 1)%nat with (length before) by lia.
      apply take_ge. rewrite length_drop. lia.
    + rewrite length_app. simpl length.
      replace (Z.of_nat (length before) =? Z.of_nat (length before + S (S (length rest))) - 1)
        with false by (symmetry; apply Z.eqb_neq; lia).
      by rewrite bool_decide_eq_false_2.
  - rewrite (bool_decide_eq_false_2 (Some piece = Some "*")) by congruence.
    rewrite (bool_decide_eq_false_2 (piece = "*")) by done.
    by rewrite andb_false_r.
Qed.

Lemma startsWith_colon piece :
  Js.startsWith piece ":" = true → piece = String ":" (Js.slice1 piece).
Proof.
  destruct piece as [|c piece]; [done|]. simpl.
  by intros ->%bool_decide_eq_true.
Qed.

Lemma amended_bind_spec_bind rest user i d :
  ":__proto__" ∉ rest →
  amended_bind (spec_compile rest) user i d = spec_bind (spec_compile rest) user i d.
Proof.
  revert i d. induction rest as [|piece rest IH]; intros i d Hout; [done|].
  apply not_elem_of_cons in Hout as [Hne Hout].
  simpl spec_compile. rewrite spec_classify_eq.
  destruct (Js.startsWith piece ":") eqn:Hcolon.
  - simpl. rewrite IH by done. f_equal.
    unfold bind_own_param, bind_param, Js.assign.
    rewrite bool_decide_eq_false_2; [done|].
    intros Hname. apply startsWith_colon in Hcolon. congruence.
  - case_bool_decide; [case_bool_decide|]; simpl; by rewrite ?IH.
Qed.

(** C8, as the code has it.  [#getUserRouteDetails] goes through the
    pattern: a parameter [:name] at index [i] sets [params[name]] to the
    request segment at [i], unless the name is [__proto__], for which the
    assignment leaves [params] as it was; a [*] before the last index
    appends the request segment at [i] to [wildcards]; a [*] at the last
    index appends every request segment from there to the end; a literal
    adds nothing.  For a pattern without the segment [:__proto__] this is
    the binding of the specification. *)
Theorem getUserRouteDetails_spec route user :
  Router.getUserRouteDetails route user
  = amended_bind (spec_compile route) user 0 no_details
  ∧ (":__proto__" ∉ route →
     Router.getUserRouteDetails route user
     = spec_bind (spec_compile route) user 0 no_details).
Proof.
  assert (Router.getUserRouteDetails route user
          = amended_bind (spec_compile route) user 0 no_details) as Heq.
  { unfold Router.getUserRouteDetails. apply (details_loop_spec user [] route). }
  split; [done|]. intros Hout. by rewrite Heq, amended_bind_spec_bind.
Qed.

Lemma getUserRouteDetails_spec_witness :
  Router.getUserRouteDetails ["user"; ":id"] ["user"; "42"]
  = {| Router.details_wildcards := [];
       Router.details_params := {[ "id" := Some "42" ]} |}.
Proof.
  rewrite (proj2 (getUserRouteDetails_spec ["user"; ":id"] ["user"; "42"])).
  - reflexivity.
  - intros Hin. repeat (apply elem_of_cons in Hin as [Hin|Hin]; [discriminate|]).
    by apply elem_of_nil in Hin.
Defined.

(** C8 fails as it is written.  The segment [:__proto__] is a parameter
    named [__proto__]; against the request [x] the specification binds
    [params[__proto__]] to [x], and the code binds nothing. *)
Lemma getUserRouteDetails_counterexample :
  spec_compile [":__proto__"] = [SParameter "__proto__"]
  ∧ Router.details_params (spec_bind (spec_compile [":__proto__"]) ["x"] 0 no_details)
      !! "__proto__" = Some (Some "x")
  ∧ Router.details_params (Router.getUserRouteDetails [":__proto__"] ["x"])
      !! "__proto__" = None
  ∧ Router.getUserRouteDetails [":__proto__"] ["x"] = no_details.
Proof. split_and!; reflexivity. Qed.

(** The examples of the specification. *)
Lemma getUserRouteDetails_examples :
  Router.getUserRouteDetails ["user"; ":id"] ["user"; "42"]
  = {| Router.details_wildcards := [];
       Router.details_params := {[ "id" := Some "42" ]} |}
  ∧ Router.details_wildcards
      (Router.getUserRouteDetails ["user"; "*"] ["user"; "settings"; "edit"])
    = [Some "settings"; Some "edit"]
  ∧ Router.details_wildcards
      (Router.getUserRouteDetails ["*"; "x"; "*"] ["a"; "x"; "b"; "c"])
    = [Some "a"; Some "b"; Some "c"].
Proof. split_and!; reflexivity. Qed.

(** ** The navigation state machine *)

Section NavigationFacts.

Context {World : Type}.
Variable URLSearchParams : string → list (string * string).

Abbreviation run := (Router.handleHashChange URLSearchParams).

(** What one run does, step by step. *)
Lemma handleHashChange_run location noLeave (s : Router.state World) :
  let this := Router.this s in
  let ev := event_of URLSearchParams this location in
  let url := url_of URLSearchParams location in
  run location noLeave s =
  match exit_step URLSearchParams this location noLeave (Router.world s) with
  | (w1, cs1, Router.Rejected reason) =>
      ({| Router.this := this; Router.world := w1;
          Router.calls := Router.calls s ++ Router.ReplaceState url :: cs1 |},
       Router.Throw reason)
  | (w1, cs1, Router.Fulfilled) =>
      match match_of URLSearchParams this location with
      | Some m =>
          let '(w2, r2) := Router.afterEnter m ev w1 in
          let cs2 :=
            handler_calls URLSearchParams this location Router.AfterEnter
              (Js.toPropertyKey (matchingRoute URLSearchParams this location)) r2 in
          match r2 with
          | Router.Fulfilled =>
              ({| Router.this :=
                    with_currentRoute this (matchingRoute URLSearchParams this location);
                  Router.world := w2;
                  Router.calls := Router.calls s ++ Router.ReplaceState url :: cs1 ++ cs2 |},
               Router.Normal tt)
          | Router.Rejected reason =>
              ({| Router.this := this; Router.world := w2;
                  Router.calls := Router.calls s ++ Router.ReplaceState url :: cs1 ++ cs2 |},
               Router.Throw reason)
          end
      | None =>
          match Js.get "404" (Router.routes this) with
          | Some r =>
              let '(w2, r2) := Router.afterEnter r ev w1 in
              let cs2 :=
                handler_calls URLSearchParams this location Router.AfterEnter "404" r2 in
              match r2 with
              | Router.Fulfilled =>
                  ({| Router.this := with_currentRoute this (Some "404");
                      Router.world := w2;
                      Router.calls :=
                        Router.calls s ++ Router.ReplaceState url :: cs1 ++ cs2 |},
                   Router.Normal tt)
              | Router.Rejected reason =>
                  ({| Router.this := this; Router.world := w2;
                      Router.calls :=
                        Router.calls s ++ Router.ReplaceState url :: cs1 ++ cs2 |},
                   Router.Throw reason)
              end
          | None =>
              ({| Router.this := with_currentRoute this (Some "404");
                  Router.world := w1;
                  Router.calls := Router.calls s ++ Router.ReplaceState url :: cs1 |},
               Router.Normal tt)
          end
      end
  end.
Proof.
  destruct s as [this w cs].
  unfold Router.handleHashChange, exit_step, handler_calls, event_of, match_of,
    lastMatch_of, matchingRoute, entering, url_of, with_currentRoute.
  cbv [mbind Router.async_bind mret Router.async_ret Router.get_this
       Router.replaceState Router.await Router.set_currentRoute
       Router.this Router.world Router.calls].
  cbv zeta.
  destruct (Js.get (Js.toPropertyKey (Router.currentRoute this)) (Router.routes this))
    as [l|]; [destruct noLeave; cbv [negb]|];
  repeat match goal with
    | |- context [Router.beforeExit ?l ?e ?w] =>
        destruct (Router.beforeExit l e w) as [? [|?]]
    | |- context [Router.afterEnter ?m ?e ?w] =>
        destruct (Router.afterEnter m e w) as [? [|?]]
    | |- context [match Js.get ?k ?o with _ => _ end] =>
        destruct (Js.get k o)
    end;
  rewrite <- ?app_assoc; try reflexivity.

Qed.

Lemma exit_step_calls this location noLeave (w : World) :
  Forall (is_handler_call Router.BeforeExit)
    (exit_step URLSearchParams this location noLeave w).1.2.
Proof.
  unfold exit_step.
  destruct (lastMatch_of this) as [l|]; [destruct noLeave|]; simpl; try done.
  destruct (Router.beforeExit l _ w) as [w' r]. simpl. by repeat constructor.
Qed.

(** C6.  In one run: on the initial load no exit handler is called; in
    any other run from a state whose current route has an entry, the exit
    handler of that entry is called with the event right after the
    history is replaced and its promise settles before any enter handler
    is called; when it is fulfilled and a route matched, the enter handler
    of that route then runs, with the same event, on the world the exit
    handler left. *)
Theorem exit_completes_before_enter location noLeave (s : Router.state World) :
  let this := Router.this s in
  let ev := event_of URLSearchParams this location in
  let url := url_of URLSearchParams location in
  let key := Js.toPropertyKey (Router.currentRoute this) in
  let after := (run location noLeave s).1 in
  (noLeave = true →
   ∃ cs, Router.calls after = Router.calls s ++ Router.ReplaceState url :: cs
         ∧ Forall (is_handler_call Router.AfterEnter) cs)
  ∧ (noLeave = false → ∀ l, lastMatch_of this = Some l →
     let exit := Router.beforeExit l ev (Router.world s) in
     ∃ cs, Router.calls after
           = Router.calls s
             ++ Router.ReplaceState url
                :: Router.Invoke Router.BeforeExit key ev
                :: Router.Settle Router.BeforeExit key exit.2 :: cs
           ∧ Forall (is_handler_call Router.AfterEnter) cs
           ∧ (∀ m, match_of URLSearchParams this location = Some m →
                exit.2 = Router.Fulfilled →
                let enter := Router.afterEnter m ev exit.1 in
                cs = handler_calls URLSearchParams this location Router.AfterEnter
                       (Js.toPropertyKey (matchingRoute URLSearchParams this location))
                       enter.2
                ∧ Router.world after = enter.1)).
Proof.
  intros this ev url key after. subst after.
  rewrite handleHashChange_run. fold this ev url. split.
  - intros ->. unfold exit_step.
    replace (match lastMatch_of this with
             | Some _ | _ => (Router.world s, [], Router.Fulfilled) end)
      with (Router.world s, @nil Router.call, Router.Fulfilled)
      by (by destruct (lastMatch_of this)).
    destruct (match_of URLSearchParams this location) as [m|].
    + destruct (Router.afterEnter m ev (Router.world s)) as [w2 [|reason]];
        eexists; (split; [reflexivity|]); by repeat constructor.
    + destruct (Js.get "404" (Router.routes this)) as [r|].
      * destruct (Router.afterEnter r ev (Router.world s)) as [w2 [|reason]];
          eexists; (split; [reflexivity|]); by repeat constructor.
      * eexists. split; [reflexivity|]. constructor.
  - intros -> l Hl exit. subst exit. unfold exit_step. rewrite Hl.
    fold ev key.
    destruct (Router.beforeExit l ev (Router.world s)) as [w1 [|reason]]; simpl.
    + destruct (match_of URLSearchParams this location) as [m|].
      * destruct (Router.afterEnter m ev w1) as [w2 r2] eqn:Henter.
        exists (handler_calls URLSearchParams this location Router.AfterEnter
                  (Js.toPropertyKey (matchingRoute URLSearchParams this location)) r2).
        split_and!.
        -- by destruct r2.
        -- by repeat constructor.
        -- intros m' [= <-] _. rewrite Henter. by destruct r2.
      * destruct (Js.get "404" (Router.routes this)) as [r|].
        -- destruct (Router.afterEnter r ev w1) as [w2 r2].
           exists (handler_calls URLSearchParams this location Router.AfterEnter "404" r2).
           split_and!; [by destruct r2|by repeat constructor|done].
        -- exists []. by split_and!.
    + exists []. by split_and!.
Qed.

(** C3, as the code has it.  Nothing catches the failure of a handler.
    When the exit handler rejects, the run throws its reason at once: no
    enter handler is called and [#currentRoute] keeps its value.  When the
    exit step goes through and the enter handler of the matched route, or
    of the fallback, rejects, the run throws its reason and
    [#currentRoute] keeps its value too.  This is said of the runs whose
    lookups find own properties only ([own_lookups]): under a
    [#currentRoute] that names an inherited member the run throws on
    calling an exit handler that is none. *)
Theorem handler_failure_aborts location noLeave (s : Router.state World) :
  let this := Router.this s in
  let ev := event_of URLSearchParams this location in
  let url := url_of URLSearchParams location in
  let left := exit_step URLSearchParams this location noLeave (Router.world s) in
  let entered (key : string) (w2 : World) (reason : string) :=
    ({| Router.this := this; Router.world := w2;
        Router.calls :=
          Router.calls s
          ++ Router.ReplaceState url
             :: left.1.2
             ++ handler_calls URLSearchParams this location Router.AfterEnter key
                  (Router.Rejected reason) |},
     Router.Throw (A := unit) reason) in
  own_lookups this noLeave →
  (∀ reason, left.2 = Router.Rejected reason →
     run location noLeave s
     = ({| Router.this := this; Router.world := left.1.1;
           Router.calls := Router.calls s ++ Router.ReplaceState url :: left.1.2 |},
        Router.Throw reason)
     ∧ Forall (is_handler_call Router.BeforeExit) left.1.2)
  ∧ (∀ m w2 reason, left.2 = Router.Fulfilled →
       match_of URLSearchParams this location = Some m →
       Router.afterEnter m ev left.1.1 = (w2, Router.Rejected reason) →
       run location noLeave s
       = entered (Js.toPropertyKey (matchingRoute URLSearchParams this location)) w2 reason)
  ∧ (∀ r w2 reason, left.2 = Router.Fulfilled →
       match_of URLSearchParams this location = None →
       Js.get "404" (Router.routes this) = Some r →
       Router.afterEnter r ev left.1.1 = (w2, Router.Rejected reason) →
       run location noLeave s = entered "404" w2 reason).
Proof.
  intros this ev url left entered _. subst entered.
  rewrite handleHashChange_run. fold this ev url left.
  pose proof (exit_step_calls this location noLeave (Router.world s)) as Hcalls.
  fold left in Hcalls.
  destruct left as [[w1 cs1] r1]. simpl in *. split_and!.
  - by intros reason ->.
  - intros m w2 reason -> -> Henter. fold ev. by rewrite Henter.
  - intros r w2 reason -> -> -> Henter. fold ev. by rewrite Henter.
Qed.

(** C5, as the code has it.  Let the Matcher find no key, let no route be
    registered under the name [undefined], and let the lookups of the run
    find own properties only ([own_lookups]).  Once the exit step has gone
    through: when an entry is registered under the key [404], its enter
    handler is called with the event and, when it is fulfilled,
    [#currentRoute] becomes the key [404]; when there is none, no enter
    handler is called and [#currentRoute] becomes [404] as well. *)
Theorem no_match_commits_404 location noLeave (s : Router.state World) :
  let this := Router.this s in
  let ev := event_of URLSearchParams this location in
  let url := url_of URLSearchParams location in
  let left := exit_step URLSearchParams this location noLeave (Router.world s) in
  own_lookups this noLeave →
  matchingRoute URLSearchParams this location = None →
  Js.get "undefined" (Router.routes this) = None →
  left.2 = Router.Fulfilled →
  (∀ r w2, Js.get "404" (Router.routes this) = Some r →
     Router.afterEnter r ev left.1.1 = (w2, Router.Fulfilled) →
     run location noLeave s
     = ({| Router.this := with_currentRoute this (Some "404");
           Router.world := w2;
           Router.calls :=
             Router.calls s
             ++ Router.ReplaceState url
                :: left.1.2
                ++ [Router.Invoke Router.AfterEnter "404" ev;
                    Router.Settle Router.AfterEnter "404" Router.Fulfilled] |},
        Router.Normal tt))
  ∧ (Js.get "404" (Router.routes this) = None →
     run location noLeave s
     = ({| Router.this := with_currentRoute this (Some "404");
           Router.world := left.1.1;
           Router.calls := Router.calls s ++ Router.ReplaceState url :: left.1.2 |},
        Router.Normal tt)).
Proof.
  intros this ev url left _ Hnone Hundef Hleft.
  assert (match_of URLSearchParams this location = None) as Hmatch.
  { unfold match_of. by rewrite Hnone. }
  rewrite handleHashChange_run. fold this ev url left.
  destruct left as [[w1 cs1] r1]. simpl in *. subst r1. rewrite Hmatch.
  split.
  - intros r w2 -> Henter. fold ev. by rewrite Henter.
  - by intros ->.
Qed.

End NavigationFacts.

(** From [a] to [b]: the exit handler of [a] has left its note when the
    enter handler of [b] leaves its own. *)
Lemma exit_completes_before_enter_witness :
  Router.world
    (Router.handleHashChange no_entries (at_hash "#/b") false
       (fresh (router_ab (noting "exit a")))).1
  = ["exit a"; "enter b"].
Proof.
  pose proof (proj2 (exit_completes_before_enter no_entries (at_hash "#/b") false
                       (fresh (router_ab (noting "exit a"))))
                eq_refl) as Hexit.
  edestruct Hexit as (cs & _ & _ & Henter); [reflexivity|].
  edestruct Henter as [_ Hworld]; [reflexivity|reflexivity|].
  exact Hworld.
Defined.

(** The exit handler of [a] rejects on the way to [b]: the run throws. *)
Lemma handler_failure_aborts_witness :
  (Router.handleHashChange no_entries (at_hash "#/b") false
     (fresh (router_ab (failing "boom")))).2
  = Router.Throw "boom".
Proof.
  assert (own_lookups (router_ab (failing "boom")) false) as Hown.
  { split; [reflexivity|]. intros _. left. eexists. reflexivity. }
  destruct (proj1 (handler_failure_aborts no_entries (at_hash "#/b") false
                     (fresh (router_ab (failing "boom"))) Hown)
              "boom" eq_refl) as [Hrun _].
  rewrite Hrun. reflexivity.
Defined.

(** C3 fails as it is written.  The route [a] is active and its exit
    handler rejects; on the way to [b], which the Matcher chooses, the run
    throws, the enter handler of [b] is never called, and [#currentRoute]
    is still [a]. *)
Lemma handler_failure_counterexample :
  let this := router_ab (failing "boom") in
  let location := at_hash "#/b" in
  let ev := event_of no_entries this location in
  matchingRoute no_entries this location = Some "b"
  ∧ Router.handleHashChange no_entries location false (fresh this)
    = ({| Router.this := this;
          Router.world := [];
          Router.calls :=
            [Router.ReplaceState "http://host/#/b";
             Router.Invoke Router.BeforeExit "a" ev;
             Router.Settle Router.BeforeExit "a" (Router.Rejected "boom")] |},
       Router.Throw "boom")
  ∧ Router.currentRoute this = Some "a".
Proof. split_and!; reflexivity. Qed.

(** Nothing matches [nowhere]: with the fallback its enter handler runs,
    without it none does, and the current route is [404] either way. *)
Lemma no_match_commits_404_witness :
  Router.handleHashChange no_entries (at_hash "#/nowhere") true (fresh router_404)
  = ({| Router.this := with_currentRoute router_404 (Some "404");
        Router.world := ["enter 404"];
        Router.calls :=
          [Router.ReplaceState "http://host/#/nowhere";
           Router.Invoke Router.AfterEnter "404"
             (event_of no_entries router_404 (at_hash "#/nowhere"));
           Router.Settle Router.AfterEnter "404" Router.Fulfilled] |},
     Router.Normal tt)
  ∧ Router.handleHashChange no_entries (at_hash "#/nowhere") true
      (fresh (Router.new None))
    = ({| Router.this := with_currentRoute (Router.new None) (Some "404");
          Router.world := [];
          Router.calls := [Router.ReplaceState "http://host/#/nowhere"] |},
       Router.Normal tt).
Proof.
  assert (own_lookups router_404 true) as Hown.
  { split; [reflexivity|discriminate]. }
  assert (own_lookups (Router.new (World := list string) None) true) as Hown'.
  { split; [reflexivity|discriminate]. }
  split.
  - eapply (proj1 (no_match_commits_404 no_entries (at_hash "#/nowhere") true
                     (fresh router_404) Hown eq_refl eq_refl eq_refl));
      reflexivity.
  - apply (proj2 (no_match_commits_404 no_entries (at_hash "#/nowhere") true
                    (fresh (Router.new None)) Hown' eq_refl eq_refl eq_refl));
      reflexivity.
Defined.

(** C5 fails as it is written.  Without a fallback, a run in which nothing
    matches ends with [#currentRoute] set to [404], not left undefined.
    With the fallback, which is the route a user adds under the key [404],
    the run ends in the very state a run to [#/404], where that route is
    the match, ends in. *)
Lemma no_match_counterexample :
  let idle := Router.new (World := list string) None in
  matchingRoute no_entries idle (at_hash "#/nowhere") = None
  ∧ Js.get "404" (Router.routes idle) = None
  ∧ Router.currentRoute
      (Router.this
         (Router.handleHashChange no_entries (at_hash "#/nowhere") false (fresh idle)).1)
    = Some "404"
  ∧ matchingRoute no_entries router_404 (at_hash "#/nowhere") = None
  ∧ matchingRoute no_entries router_404 (at_hash "#/404") = Some "404"
  ∧ Router.this
      (Router.handleHashChange no_entries (at_hash "#/nowhere") false
         (fresh router_404)).1
    = Router.this
        (Router.handleHashChange no_entries (at_hash "#/404") false (fresh router_404)).1.
Proof. split_and!; reflexivity. Qed.

(** ** The path normalizer *)

Lemma split_without sep s : contains sep s = false → Js.split sep s = [s].
Proof.
  induction s as [|c s IH]; simpl; [done|].
  intros [Hc Hs]%orb_false_elim. by rewrite Hc, IH.
Qed.

Lemma split_head sep s :
  ∃ piece pieces, Js.split sep s = piece :: pieces ∧ contains sep piece = false.
Proof.
  induction s as [|c s (piece & pieces & IH & Hpiece)]; simpl.
  - by exists EmptyString, [].
  - destruct (bool_decide (c = sep)) eqn:Hc.
    + by exists EmptyString, (Js.split sep s).
    + rewrite IH. exists (String c piece), pieces. simpl. by rewrite Hc, Hpiece.
Qed.

Lemma replace_hash_without s : contains "#" s = false → Router.replace_hash s = s.
Proof.
  induction s as [|c s IH]; simpl; [done|].
  intros [Hc Hs]%orb_false_elim. by rewrite Hc, IH.
Qed.

Lemma noTrail_fixed s :
  contains "#" s = false → Js.startsWith s "/" = false → Js.endsWith s "/" = false →
  Router.noTrail s = s.
Proof.
  intros Hhash Hlead Htrail. unfold Router.noTrail.
  by rewrite replace_hash_without, Hlead, Htrail.
Qed.

(** The path of a route never holds a question mark. *)
Lemma Route_string_no_query usp hash :
  contains "?" (Router.Route_string (Router.Route_new usp hash)) = false.
Proof.
  unfold Router.Route_new, Router.route_and_query.
  destruct (split_head "?" (Router.noTrail hash)) as (piece & pieces & -> & Hpiece).
  done.
Qed.

(** C9, as the code has it.  Normalizing removes one [#], one leading and
    one trailing slash.  Whenever the path a fragment normalizes to holds
    no [#] and neither begins nor ends with a slash, normalizing that path
    again gives the same path and the same segments; its query mapping is
    empty, the path holding no query. *)
Theorem Route_new_again usp hash :
  let once := Router.Route_new usp hash in
  contains "#" (Router.Route_string once) = false →
  Js.startsWith (Router.Route_string once) "/" = false →
  Js.endsWith (Router.Route_string once) "/" = false →
  Router.Route_new usp (Router.Route_string once)
  = {| Router.Route_string := Router.Route_string once;
       Router.Route_segments := Router.Route_segments once;
       Router.Route_queries := ∅ |}.
Proof.
  intros once Hhash Hlead Htrail.
  pose proof (Route_string_no_query usp hash) as Hquery. fold once in Hquery.
  unfold Router.Route_new at 1. unfold Router.route_and_query.
  rewrite noTrail_fixed, split_without by done.
  done.
Qed.

Lemma Route_new_again_witness :
  Router.Route_new no_entries "user/42"
  = {| Router.Route_string := "user/42";
       Router.Route_segments := ["user"; "42"];
       Router.Route_queries := ∅ |}.
Proof.
  apply (Route_new_again no_entries "#/user/42/"); reflexivity.
Defined.

(** C9 fails as it is written.  The fragment [#/a//] normalizes to the path
    [a/] with the segments [a] and the empty one, and that path normalizes
    to [a] with the single segment [a]; the fragment [#/a#b] normalizes to
    [a#b], and that path to [ab]. *)
Lemma Route_new_counterexample :
  let once := Router.Route_new no_entries "#/a//" in
  let twice := Router.Route_new no_entries (Router.Route_string once) in
  let once' := Router.Route_new no_entries "#/a#b" in
  let twice' := Router.Route_new no_entries (Router.Route_string once') in
  Router.Route_string once = "a/"
  ∧ Router.Route_segments once = ["a"; EmptyString]
  ∧ Router.Route_string twice = "a"
  ∧ Router.Route_segments twice = ["a"]
  ∧ Router.Route_string twice ≠ Router.Route_string once
  ∧ Router.Route_string once' = "a#b"
  ∧ Router.Route_string twice' = "ab".
Proof. by split_and!. Qed.

(** ** Registration *)

(** C10.  [add] stores the entry under the path its argument normalizes
    to, and [remove] deletes the key equal to its argument as given; so
    whenever the two differ, the entry is still there after [add] and then
    [remove] of the same string.  (When they are equal it is gone.) *)
Theorem add_then_remove {World} usp (this : Router.fields World) hash handlers :
  let route := Router.Route_new usp hash in
  let key := Router.Route_string route in
  let entry :=
    {| Router.entry_string := key;
       Router.segments := Router.Route_segments route;
       Router.beforeExit := Router.handlers_beforeExit handlers;
       Router.afterEnter := Router.handlers_afterEnter handlers |} in
  let added := Router.add usp hash handlers this in
  Js.get key (Router.routes added) = Some entry
  ∧ Router.routes (Router.remove hash added) = Js.delete hash (Router.routes added)
  ∧ (key ≠ hash → Js.get key (Router.routes (Router.remove hash added)) = Some entry)
  ∧ (key = hash → Js.get key (Router.routes (Router.remove hash added)) = None).
Proof.
  intros route key entry added. split_and!.
  - apply get_set_eq.
  - done.
  - intros Hne. simpl. rewrite get_delete_ne by done. apply get_set_eq.
  - intros ->. simpl. apply get_delete_eq.
Qed.

(** [add('/user/:id')] stores under [user/:id]; [remove('/user/:id')]
    leaves it there. *)
Lemma add_then_remove_witness :
  is_Some
    (Js.get "user/:id"
       (Router.routes
          (Router.remove "/user/:id"
             (Router.add no_entries "/user/:id" idle_handlers
                (Router.new (World := unit) None))))).
Proof.
  eexists.
  apply (proj1 (proj2 (proj2 (add_then_remove no_entries (Router.new (World := unit) None)
                                "/user/:id" idle_handlers)))).
  discriminate.
Defined.

(** * Further properties of the code *)

(** ** Ranking: bounds and what the score depends on *)

(** What one turn of the loop can do: add 1, 2 or 3 and go on (3 only on an
    exact match), return 0, or, on a trailing wildcard that meets a
    non-empty request segment, stop with the trail added. *)
Lemma body_shape v route user i score :
  (∃ c, 1 ≤ c ≤ 3
        ∧ rank_body_of v route user i score = Js.Continue (score + c)
        ∧ (c = 3 → route !! i = user !! i))
  ∨ rank_body_of v route user i score = Js.Return 0
  ∨ (length route = S i ∧ route !! i = Some "*" ∧ Js.truthy (user !! i) = true
     ∧ rank_body_of v route user i score
       = Js.Break (score + trail_of v (length user) i)).
Proof.
  destruct v; unfold_body; cbv zeta.
  all: case_bool_decide as He;
    [left; exists 3; split_and!; first [done | lia]|].
  all: destruct (Js.and_startsWith (route !! i) ":");
    [left; exists 2; split_and!; first [done | lia]|].
  all: destruct (Z.eqb_spec (Z.of_nat i) (Z.of_nat (length route) - 1)) as [Hlast|Hlast];
    destruct (Js.truthy (route !! i));
    case_bool_decide as Hw; simpl.
  all: try (right; left; reflexivity).
  all: try (left; exists 1; split_and!; first [done | lia]).
  all: destruct (Js.truthy (user !! i)); simpl;
    [right; right; split_and!; try done; try lia; f_equal; simpl; lia
    |right; left; reflexivity].
Qed.

Lemma truthy_lookup_lt (user : list string) i :
  Js.truthy (user !! i) = true → (i < length user)%nat.
Proof.
  intros H. apply lookup_lt_is_Some. by destruct (user !! i).
Qed.

Lemma trail_of_nonneg v n i : (i < n)%nat → 0 ≤ trail_of v n i.
Proof. destruct v; simpl; lia. Qed.

Lemma for_loop_nonneg v route user idxs score :
  0 ≤ score →
  0 ≤ Js.returned (Js.for_loop (rank_body_of v route user) idxs score).
Proof.
  revert score. induction idxs as [|i idxs IH]; intros score Hs; simpl; [done|].
  destruct (body_shape v route user i score)
    as [(c & Hc & -> & _)|[->|(_ & _ & Hu & ->)]]; simpl.
  - apply IH. lia.
  - done.
  - pose proof (trail_of_nonneg v _ _ (truthy_lookup_lt user i Hu)). lia.
Qed.

(** No ranking function ever returns a negative score. *)
Theorem rank_nonneg v route user : 0 ≤ rank_of v route user.
Proof. rewrite rank_of_unfold. by apply for_loop_nonneg. Qed.

Lemma for_loop_exact v route user idxs score :
  Forall (λ i, is_Some (route !! i) ∧ route !! i = user !! i) idxs →
  Js.for_loop (rank_body_of v route user) idxs score
  = Js.Continue (score + 3 * Z.of_nat (length idxs)).
Proof.
  intros Hall. revert score.
  induction Hall as [|i idxs [[rc Hr] Hu] _ IH]; intros score.
  - simpl. f_equal. lia.
  - cbn [Js.for_loop]. rewrite (body_exact v route user i score rc) by congruence.
    rewrite IH. f_equal. simpl length. lia.
Qed.

(** A request that begins with the very segments of the pattern scores 3
    for each of them, whatever those segments are (parameters and wildcards
    included), in all three functions. *)
Theorem rank_exact_prefix v route user :
  take (length route) user = route →
  rank_of v route user = 3 * Z.of_nat (length route).
Proof.
  intros Htake. rewrite rank_of_unfold, for_loop_exact.
  - simpl. rewrite length_seq. lia.
  - apply Forall_forall. intros i [_ Hi]%elem_of_seq. simpl in Hi. split.
    + by apply lookup_lt_is_Some.
    + rewrite <- Htake at 1. by apply lookup_take_lt.
Qed.

Lemma rank_exact_prefix_witness :
  rank_of PrivateRank ["user"; ":id"; "*"] ["user"; ":id"; "*"; "more"] = 9.
Proof.
  apply (rank_exact_prefix PrivateRank ["user"; ":id"; "*"] ["user"; ":id"; "*"; "more"]).
  reflexivity.
Defined.

(** Before the last index the scan either goes on or has returned 0. *)
Lemma scan_prefix v route user n :
  (n < length route)%nat →
  (∃ score, scanned v route user n score)
  ∨ Js.for_loop (rank_body_of v route user) (seq 0 n) 0 = Js.Return 0.
Proof.
  unfold scanned. induction n as [|n IH]; intros Hn; [left; by exists 0|].
  rewrite seq_S, for_loop_app. simpl.
  destruct IH as [[score ->] | ->]; [lia| |by right].
  destruct (body_shape v route user n score)
    as [(c & _ & -> & _)|[->|(Hlen & _)]]; [left; eauto|by right|lia].
Qed.

Lemma rank_of_prefix_return v route user n :
  (n ≤ length route)%nat →
  Js.for_loop (rank_body_of v route user) (seq 0 n) 0 = Js.Return 0 →
  rank_of v route user = 0.
Proof.
  intros Hn Hret. rewrite rank_of_unfold.
  replace (length route) with (n + (length route - n))%nat by lia.
  by rewrite seq_app, for_loop_app, Hret.
Qed.

Lemma last_lookup_length (route : list string) i :
  length route = S i → route !! i = last route.
Proof. intros Hlen. rewrite last_lookup, Hlen. done. Qed.

Lemma scan_bound v route user n :
  last route ≠ Some "*" → (n ≤ length route)%nat →
  (∃ score, scanned v route user n score
            ∧ score ≤ 3 * Z.of_nat n
            ∧ (score = 3 * Z.of_nat n → ∀ i, (i < n)%nat → route !! i = user !! i))
  ∨ Js.for_loop (rank_body_of v route user) (seq 0 n) 0 = Js.Return 0.
Proof.
  intros Hlast. unfold scanned. induction n as [|n IH]; intros Hn.
  - left. exists 0. split_and!; [done|lia|]. intros _ i Hi. lia.
  - rewrite seq_S, for_loop_app. simpl.
    destruct IH as [(score & -> & Hle & Heq) | ->]; [lia| |by right].
    destruct (body_shape v route user n score)
      as [(c & Hc & -> & Hexact)|[->|(Hlen & Hstar & _)]].
    + left. exists (score + c). split_and!; [done|lia|].
      intros Hmax i Hi. destruct (decide (i = n)) as [->|Hne].
      * apply Hexact. lia.
      * apply Heq; lia.
    + by right.
    + rewrite (last_lookup_length route n Hlen) in Hstar. done.
Qed.

(** A pattern that does not end in [*] scores at most 3 per segment, and
    reaches that only when the request begins with the very segments of the
    pattern. *)
Theorem rank_max_only_exact v route user :
  last route ≠ Some "*" →
  rank_of v route user ≤ 3 * Z.of_nat (length route)
  ∧ (rank_of v route user = 3 * Z.of_nat (length route) →
     take (length route) user = route).
Proof.
  intros Hlast.
  destruct (scan_bound v route user (length route) Hlast)
    as [(score & Hscan & Hle & Heq) | Hret]; [lia| |].
  - rewrite rank_of_unfold. unfold scanned in Hscan. rewrite Hscan. simpl.
    split; [done|]. intros Hmax. apply list_eq. intros i.
    destruct (decide (i < length route)%nat) as [Hi|Hi].
    + rewrite lookup_take_lt by done. symmetry. by apply Heq.
    + rewrite lookup_take_ge by lia. symmetry. apply lookup_ge_None. lia.
  - rewrite (rank_of_prefix_return v route user (length route)) by done.
    split; [lia|]. intros Hlen.
    assert (route = []) as -> by (apply nil_length_inv; lia).
    done.
Qed.

Lemma rank_max_only_exact_witness :
  rank_of DraftRank ["user"; ":id"] ["user"; "42"] ≤ 3 * 2.
Proof.
  apply (proj1 (rank_max_only_exact DraftRank ["user"; ":id"] ["user"; "42"]
                  ltac:(discriminate))).
Defined.

Lemma body_ext v route user user' i score :
  user !! i = user' !! i →
  (length route = S i → route !! i ≠ Some "*") →
  rank_body_of v route user i score = rank_body_of v route user' i score.
Proof.
  intros Hu Hlast.
  assert ((Z.of_nat i =? Z.of_nat (length route) - 1)
          && Js.truthy (route !! i) && Js.strict_eq (route !! i) (Some "*") = false)
    as Hcond.
  { apply not_true_is_false.
    intros [[Hi%Z.eqb_eq _]%andb_prop Hs%bool_decide_eq_true]%andb_prop.
    apply Hlast; [lia|done]. }
  destruct v; unfold rank_body_of, Ranker.rank_body, Part000.rank_body, Router.rank_body;
    cbv zeta; by rewrite Hcond, Hu.
Qed.

Lemma for_loop_ext body body' idxs score :
  Forall (λ i, ∀ s, body i s = body' i s) idxs →
  Js.for_loop body idxs score = Js.for_loop body' idxs score.
Proof.
  intros Hall. revert score.
  induction Hall as [|i idxs Hi _ IH]; intros score; [done|].
  simpl. rewrite Hi. destruct (body' i score); auto.
Qed.

(** A pattern that does not end in [*] looks at no more request segments
    than it has segments itself: what the request holds beyond the length
    of the pattern does not change the score. *)
Theorem rank_ignores_excess v route user :
  last route ≠ Some "*" →
  rank_of v route user = rank_of v route (take (length route) user).
Proof.
  intros Hlast. rewrite !rank_of_unfold. f_equal. apply for_loop_ext.
  apply Forall_forall. intros i [_ Hi]%elem_of_seq s. simpl in Hi.
  apply body_ext.
  - by rewrite lookup_take_lt.
  - intros Hlen. by rewrite (last_lookup_length route i Hlen).
Qed.

Lemma rank_ignores_excess_witness :
  rank_of FirstRank ["user"; ":id"] ["user"; "42"; "posts"; "7"]
  = rank_of FirstRank ["user"; ":id"] ["user"; "42"].
Proof.
  apply (rank_ignores_excess FirstRank ["user"; ":id"] ["user"; "42"; "posts"; "7"]).
  discriminate.
Defined.

(** A pattern that ends in [*] never matches a request with fewer segments
    than the pattern: the trailing wildcard needs a segment of its own. *)
Theorem rank_trailing_needs_segment v route user :
  last route = Some "*" →
  (length user < length route)%nat →
  rank_of v route user = 0.
Proof.
  intros Hlast Hshort.
  destruct (length route) as [|i] eqn:Hlen; [lia|].
  assert (route !! i = Some "*") as Hstar
    by (by rewrite (last_lookup_length route i Hlen)).
  destruct (scan_prefix v route user i) as [[score Hscan]|Hret]; [lia| |].
  - rewrite (rank_of_at v route user i score) by (done || lia).
    rewrite body_trailing_absent; [done|done|done|].
    by rewrite (lookup_ge_None_2 user i) by lia.
  - apply (rank_of_prefix_return v route user i); [lia|done].
Qed.

Lemma rank_trailing_needs_segment_witness :
  rank_of FirstRank ["user"; ":id"; "*"] ["user"; "42"] = 0.
Proof.
  apply (rank_trailing_needs_segment FirstRank ["user"; ":id"; "*"] ["user"; "42"]).
  - reflexivity.
  - simpl. lia.
Defined.

(** In [#rank] a pattern with a [*] before its last index matches no
    request, unless the request holds a literal [*] at that index. *)
Theorem rank_private_wildcard_never_matches route user i :
  route !! i = Some "*" →
  length route ≠ S i →
  user !! i ≠ Some "*" →
  Router.rank route user = 0.
Proof.
  intros Hstar Hlen Hu.
  assert (i < length route)%nat as Hi by (by eapply lookup_lt_Some).
  destruct (scan_prefix PrivateRank route user i Hi) as [[score Hscan]|Hret].
  - by eapply rank_wildcard_private_rejects.
  - apply (rank_of_prefix_return PrivateRank route user i); [lia|done].
Qed.

Lemma rank_private_wildcard_never_matches_witness :
  Router.rank ["*"; "*"; "hello"] ["user"; "42"; "hello"] = 0.
Proof.
  apply (rank_private_wildcard_never_matches ["*"; "*"; "hello"] ["user"; "42"; "hello"] 1);
    [reflexivity | discriminate | discriminate].
Defined.

(** ** Matching: what [#chooseBest] can return *)

(** The key [#chooseBest] returns is a key of [#routes], and its route
    scores more than 0 against the request: the entry looked up under it
    is always there. *)
Theorem chooseBest_registered {World} (this : Router.fields World) user k :
  Router.chooseBest this user = Some k →
  ∃ entry, Js.get k (Router.routes this) = Some entry
           ∧ 0 < Router.rank (Router.segments entry) user.
Proof.
  unfold Router.chooseBest. rewrite chooseBest_fold by apply for_in_get.
  pose proof (first_best_fold (score_in this user) (Js.for_in (Router.routes this))
                0 EmptyString) as Hfold.
  simpl in Hfold. destruct (foldl _ _ _) as [b kb]. simpl in *.
  case_bool_decide as Hb; [|done]. intros [= ->].
  destruct Hfold as [[[= -> _] _]|(before & after & Hks & _ & Hpos & _)]; [done|].
  pose proof (for_in_get (Router.routes this)) as Hget.
  rewrite Hks, Forall_app, Forall_cons in Hget.
  destruct Hget as (_ & [entry Hentry] & _).
  exists entry. split; [done|]. unfold score_in in Hpos. by rewrite Hentry in Hpos.
Qed.

Lemma chooseBest_registered_witness :
  ∃ entry,
    Js.get "b" (Router.routes (router_ab (noting "exit a"))) = Some entry
    ∧ 0 < Router.rank (Router.segments entry) ["b"].
Proof.
  apply (chooseBest_registered (router_ab (noting "exit a")) ["b"] "b").
  reflexivity.
Defined.

(** ** Registration: what [add] and [remove] change *)

Lemma get_set_ne {V} (o : Js.object V) k k' v :
  k ≠ k' → Js.get k' (Js.set k v o) = Js.get k' o.
Proof.
  intros Hne. induction o as [|[k0 v0] o IH]; simpl.
  - by rewrite bool_decide_eq_false_2.
  - case_bool_decide as Hk; simpl.
    + subst k0. by rewrite !bool_decide_eq_false_2.
    + by rewrite IH.
Qed.

Lemma get_None_keys {V} (o : Js.object V) k : Js.get k o = None ↔ k ∉ Js.keys o.
Proof.
  unfold Js.keys. induction o as [|[k0 v0] o IH]; simpl.
  - split; [intros _; apply not_elem_of_nil|done].
  - rewrite not_elem_of_cons. case_bool_decide as Hk.
    + split; [done|]. intros [? _]. congruence.
    + rewrite IH. split; [by split|]. by intros [_ ?].
Qed.

Lemma keys_set_old {V} (o : Js.object V) k v :
  k ∈ Js.keys o → Js.keys (Js.set k v o) = Js.keys o.
Proof.
  unfold Js.keys. induction o as [|[k0 v0] o IH]; simpl.
  - by intros ?%elem_of_nil.
  - intros Hin. case_bool_decide as Hk; simpl; [by subst|].
    f_equal. apply IH. apply elem_of_cons in Hin as [->|Hin]; done.
Qed.

Lemma keys_set_new {V} (o : Js.object V) k v :
  k ∉ Js.keys o → Js.keys (Js.set k v o) = Js.keys o ++ [k].
Proof.
  unfold Js.keys. induction o as [|[k0 v0] o IH]; simpl; [done|].
  intros [Hne Hin]%not_elem_of_cons.
  rewrite bool_decide_eq_false_2 by done. simpl. f_equal. by apply IH.
Qed.

Lemma keys_delete {V} (o : Js.object V) k :
  Js.keys (Js.delete k o) = filter (λ k', k' ≠ k) (Js.keys o).
Proof.
  unfold Js.keys, Js.delete. induction o as [|[k0 v0] o IH]; [done|].
  rewrite filter_cons. simpl. rewrite filter_cons.
  destruct (decide (k0 ≠ k)); simpl; by f_equal.
Qed.

Lemma delete_missing {V} (o : Js.object V) k : k ∉ Js.keys o → Js.delete k o = o.
Proof.
  unfold Js.keys, Js.delete. induction o as [|[k0 v0] o IH]; [done|].
  simpl. intros [Hne Hin]%not_elem_of_cons.
  rewrite filter_cons. simpl. rewrite decide_True by done. by rewrite IH.
Qed.

(** [add] touches one key only, the path its argument normalizes to
    (taken here to be other than [__proto__]).  Every other key keeps its
    entry; a key that was there keeps its place in the creation order and
    in the order of [for ... in] (its entry is replaced); a new key goes to
    the end of the creation order, and to the end of the order of
    [for ... in] when it is no array index. *)
Theorem add_frame {World} usp (this : Router.fields World) hash handlers :
  let key := Router.Route_string (Router.Route_new usp hash) in
  let added := Router.add usp hash handlers this in
  key ≠ "__proto__" →
  (∀ k, k ≠ key → Js.get k (Router.routes added) = Js.get k (Router.routes this))
  ∧ (is_Some (Js.get key (Router.routes this)) →
     Js.keys (Router.routes added) = Js.keys (Router.routes this)
     ∧ Js.for_in (Router.routes added) = Js.for_in (Router.routes this))
  ∧ (Js.get key (Router.routes this) = None →
     Js.keys (Router.routes added) = Js.keys (Router.routes this) ++ [key]
     ∧ (Js.array_index key = None →
        Js.for_in (Router.routes added) = Js.for_in (Router.routes this) ++ [key])).
Proof.
  intros key added _. split_and!.
  - intros k Hne. by apply get_set_ne.
  - intros [e He].
    assert (Js.keys (Router.routes added) = Js.keys (Router.routes this)) as Hkeys.
    { apply keys_set_old.
      destruct (decide (key ∈ Js.keys (Router.routes this))) as [|Hout]; [done|].
      apply get_None_keys in Hout. congruence. }
    split; [done|]. unfold Js.for_in. by rewrite Hkeys.
  - intros Hnone.
    assert (Js.keys (Router.routes added) = Js.keys (Router.routes this) ++ [key])
      as Hkeys by (apply keys_set_new; by apply get_None_keys).
    split; [done|]. intros Hindex. unfold Js.for_in. rewrite Hkeys, !filter_app.
    assert (Js.is_array_index key = false) as Hb.
    { unfold Js.is_array_index. apply bool_decide_eq_false_2.
      rewrite Hindex. by intros [? ?]. }
    rewrite !filter_cons, !filter_nil, Hb, decide_False, decide_True by done.
    by rewrite app_nil_r, app_assoc.
Qed.

Lemma add_frame_witness :
  Js.for_in (Router.routes
               (Router.add no_entries "#/a" idle_handlers (router_ab (noting "exit a"))))
  = ["a"; "b"]
  ∧ Js.for_in (Router.routes
                 (Router.add no_entries "#/c" idle_handlers (router_ab (noting "exit a"))))
    = ["a"; "b"; "c"].
Proof.
  split.
  - apply (proj1 (proj2 (add_frame no_entries (router_ab (noting "exit a"))
                           "#/a" idle_handlers ltac:(discriminate)))).
    by eexists.
  - apply (proj2 (proj2 (add_frame no_entries (router_ab (noting "exit a"))
                           "#/c" idle_handlers ltac:(discriminate))));
      reflexivity.
Defined.

(** [remove] deletes the key it is given and nothing else; with a key that
    is not registered it leaves the router as it was. *)
Theorem remove_frame {World} (this : Router.fields World) hash :
  Js.get hash (Router.routes (Router.remove hash this)) = None
  ∧ (∀ k, k ≠ hash →
       Js.get k (Router.routes (Router.remove hash this)) = Js.get k (Router.routes this))
  ∧ (Js.get hash (Router.routes this) = None → Router.remove hash this = this).
Proof.
  split_and!.
  - apply get_delete_eq.
  - intros k Hne. by apply get_delete_ne.
  - intros Hnone. destruct this as [routes current]. unfold Router.remove. simpl in *.
    f_equal. apply delete_missing. by apply get_None_keys.
Qed.

Lemma remove_frame_witness :
  Router.remove "/a" (router_ab (noting "exit a")) = router_ab (noting "exit a").
Proof.
  apply (proj2 (proj2 (remove_frame (router_ab (noting "exit a")) "/a"))).
  reflexivity.
Defined.

(** Whatever [add]s and [remove]s a program makes on a new router, no key
    occurs twice in [#routes]. *)
Theorem built_keys_NoDup {World} usp (this : Router.fields World) :
  built usp this → NoDup (Js.keys (Router.routes this)).
Proof.
  induction 1 as [start|hash handlers this _ IH|hash this _ IH]; simpl.
  - constructor.
  - set (key := Router.Route_string (Router.Route_new usp hash)).
    destruct (decide (key ∈ Js.keys (Router.routes this))) as [Hin|Hout].
    + by rewrite keys_set_old.
    + rewrite keys_set_new by done. apply NoDup_app. split_and!; [done| |].
      * intros k Hk ->%list_elem_of_singleton. done.
      * apply NoDup_singleton.
  - rewrite keys_delete. by apply NoDup_filter.
Qed.

Lemma built_keys_NoDup_witness :
  NoDup (Js.keys (Router.routes (router_ab (noting "exit a")))).
Proof.
  apply (built_keys_NoDup no_entries). unfold router_ab. repeat constructor.
Defined.

(** ** The first class: [add] and [remove] on the array of routes *)

Lemma join_split sep s : Js.join (String sep EmptyString) (Js.split sep s) = s.
Proof.
  induction s as [|c s IH]; [done|]. simpl Js.split.
  destruct (split_head sep s) as (piece & pieces & Hsplit & _).
  rewrite Hsplit in *.
  case_bool_decide as Hc; destruct pieces as [|piece' pieces]; simpl in *;
    subst; done.
Qed.

(** In the first class, [remove] of the string a route was added with
    takes that route out again: its segments joined by [/] are the string
    itself. *)
Theorem Ranker_add_remove {C} route (callback : C) routes :
  Ranker.remove route (Ranker.add route callback routes) = Ranker.remove route routes.
Proof.
  unfold Ranker.remove, Ranker.add. rewrite filter_app, filter_cons. simpl.
  rewrite (join_split "/" route), decide_False by (by intros ?).
  by rewrite filter_nil, app_nil_r.
Qed.

(** ** The pieces of a [Route] *)

Lemma split_pieces sep s : Forall (λ piece, contains sep piece = false) (Js.split sep s).
Proof.
  induction s as [|c s IH]; simpl; [by repeat constructor|].
  case_bool_decide as Hc; [by constructor|].
  destruct (Js.split sep s) as [|piece pieces].
  - repeat constructor. simpl. by rewrite bool_decide_eq_false_2.
  - apply Forall_cons in IH as [Hpiece Hpieces]. constructor; [|done].
    simpl. by rewrite bool_decide_eq_false_2, Hpiece.
Qed.

(** Whatever the hash, the route made of it has at least one segment, no
    segment holds a slash, the segments joined by slashes give the path
    back, and the path holds no question mark. *)
Theorem Route_well_formed usp hash :
  let route := Router.Route_new usp hash in
  Router.Route_segments route ≠ []
  ∧ Forall (λ segment, contains "/" segment = false) (Router.Route_segments route)
  ∧ Js.join "/" (Router.Route_segments route) = Router.Route_string route
  ∧ contains "?" (Router.Route_string route) = false.
Proof.
  intros route. split_and!.
  - unfold route, Router.Route_new. destruct (Router.route_and_query hash) as [p q]. simpl.
    destruct (split_head "/" p) as (piece & pieces & -> & _). done.
  - unfold route, Router.Route_new. destruct (Router.route_and_query hash) as [p q]. simpl.
    apply split_pieces.
  - unfold route, Router.Route_new. destruct (Router.route_and_query hash) as [p q]. simpl.
    apply join_split.
  - apply Route_string_no_query.
Qed.

Lemma Route_new_replace_hash usp hash hash' :
  Router.replace_hash hash = Router.replace_hash hash' →
  Router.Route_new usp hash = Router.Route_new usp hash'.
Proof.
  intros Heq. unfold Router.Route_new, Router.route_and_query, Router.noTrail.
  by rewrite Heq.
Qed.

(** [set(hash)] assigns a hash that stands for the same route as its
    argument: same path, same segments, same queries. *)
Theorem set_same_route usp hash :
  Router.Route_new usp (Router.set hash) = Router.Route_new usp hash.
Proof.
  by apply Route_new_replace_hash.
Qed.

(** The hash [#handleHashChange] writes back with [history.replaceState]
    is [#/] followed by the path.  Unless that path begins or ends with a
    slash, reading this hash gives the same path and the same segments;
    the queries are gone, the written hash holding none. *)
Theorem written_hash_reads_back usp hash :
  let entering := Router.Route_new usp hash in
  Js.startsWith (Router.Route_string entering) "/" = false →
  Js.endsWith (Router.Route_string entering) "/" = false →
  Router.Route_new usp ("#/" +:+ Router.Route_string entering)
  = {| Router.Route_string := Router.Route_string entering;
       Router.Route_segments := Router.Route_segments entering;
       Router.Route_queries := ∅ |}.
Proof.
  intros entering Hlead Htrail.
  pose proof (Route_string_no_query usp hash) as Hquery. fold entering in Hquery.
  unfold Router.Route_new at 1. unfold Router.route_and_query, Router.noTrail.
  change (Router.replace_hash ("#/" +:+ Router.Route_string entering))
    with (Router.Route_string entering).
  rewrite Hlead, Htrail, split_without by done.
  done.
Qed.

Lemma written_hash_reads_back_witness :
  Router.Route_new no_entries "#/user/42"
  = {| Router.Route_string := "user/42";
       Router.Route_segments := ["user"; "42"];
       Router.Route_queries := ∅ |}.
Proof.
  apply (written_hash_reads_back no_entries "user/42/"); reflexivity.
Defined.

Lemma contains_replace_hash c s :
  contains c s = false → contains c (Router.replace_hash s) = false.
Proof.
  induction s as [|a s IH]; simpl; [done|].
  intros [Ha Hs]%orb_false_elim.
  match goal with |- context [if ?b then _ else _] => destruct b end.
  - destruct s as [|b s]; [done|]. simpl in Hs.
    apply orb_false_elim in Hs as [Hb Hs].
    destruct b as [[] [] [] [] [] [] [] []]; simpl; by rewrite ?Hb, ?Hs.
  - simpl. rewrite Ha. simpl. by apply IH.
Qed.

Lemma contains_slice1 c s : contains c s = false → contains c (Js.slice1 s) = false.
Proof. destruct s; simpl; [done|]. by intros [_ ?]%orb_false_elim. Qed.

Lemma contains_slice_init c s :
  contains c s = false → contains c (Js.slice_init s) = false.
Proof.
  induction s as [|a s IH]; simpl; [done|].
  intros [Ha Hs]%orb_false_elim. destruct s; [done|].
  simpl in *. rewrite Ha. by apply IH.
Qed.

Lemma contains_noTrail c hash :
  contains c hash = false → contains c (Router.noTrail hash) = false.
Proof.
  intros Hc. unfold Router.noTrail.
  repeat case_match; auto using contains_replace_hash, contains_slice1, contains_slice_init.
Qed.

(** A hash without a question mark gives an empty query mapping, and the
    decoder of query strings is not consulted. *)
Theorem no_question_mark_no_queries usp hash :
  contains "?" hash = false →
  Router.Route_queries (Router.Route_new usp hash) = ∅.
Proof.
  intros Hq. unfold Router.Route_new, Router.route_and_query.
  by rewrite split_without by (by apply contains_noTrail).
Qed.

Lemma no_question_mark_no_queries_witness :
  Router.Route_queries (Router.Route_new no_entries "#/user/42") = ∅.
Proof. apply (no_question_mark_no_queries no_entries "#/user/42"). reflexivity. Defined.

Lemma split_app sep p q :
  contains sep p = false →
  Js.split sep (p +:+ String sep q) = p :: Js.split sep q.
Proof.
  induction p as [|c p IH]; simpl.
  - intros _. by rewrite bool_decide_eq_true_2.
  - intros [Hc Hp]%orb_false_elim. by rewrite Hc, IH.
Qed.

Lemma startsWith_app p q c :
  p ≠ EmptyString → Js.startsWith (p +:+ q) c = Js.startsWith p c.
Proof. by destruct p. Qed.

Lemma endsWith_app p q c :
  q ≠ EmptyString → Js.endsWith (p +:+ q) c = Js.endsWith q c.
Proof.
  intros Hq. induction p as [|a p IH]; [done|].
  simpl. rewrite IH. destruct (p +:+ q) eqn:Hpq; [|done].
  by destruct p, q.
Qed.

(** How a hash of the usual form [#/path?query] comes apart: the path is
    kept as it is, and the decoder of query strings receives the text
    after the question mark.  Here the path holds no question mark and
    does not begin with a slash, and the query is not empty, holds no
    question mark and does not end with a slash. *)
Theorem Route_new_path_query usp path query :
  contains "?" path = false →
  Js.startsWith path "/" = false →
  query ≠ EmptyString →
  contains "?" query = false →
  Js.endsWith query "/" = false →
  Router.Route_new usp ("#/" +:+ path +:+ String "?" query)
  = {| Router.Route_string := path;
       Router.Route_segments := Js.split "/" path;
       Router.Route_queries := Js.fromEntries (usp query) |}.
Proof.
  intros Hpath Hlead Hquery Hquery' Htrail.
  unfold Router.Route_new, Router.route_and_query, Router.noTrail.
  change (Router.replace_hash ("#/" +:+ path +:+ String "?" query))
    with (path +:+ String "?" query).
  assert (Js.startsWith (path +:+ String "?" query) "/" = false) as ->.
  { destruct path; [done|]. by rewrite startsWith_app. }
  assert (Js.endsWith (path +:+ String "?" query) "/" = false) as ->.
  { rewrite endsWith_app by done. simpl. by destruct query. }
  rewrite split_app, split_without by done. simpl.
  by rewrite bool_decide_eq_false_2.
Qed.

Lemma Route_new_path_query_witness :
  Router.Route_string (Router.Route_new no_entries "#/user/42?tab=posts") = "user/42".
Proof.
  exact (f_equal Router.Route_string
           (Route_new_path_query no_entries "user/42" "tab=posts"
              eq_refl eq_refl ltac:(discriminate) eq_refl eq_refl)).
Defined.

(** ** The listening sketch *)

(** When the hash begins with [#], as a hash that is not empty does:
    either it begins with [#/] already and [mount] assigns nothing, or
    [mount] assigns a hash that begins with [#/] and for which
    [#handleHashChange] logs the same route and queries. *)
Theorem mount_keeps_route usp rest :
  let hash := String "#" rest in
  match Listening.mount hash with
  | Some assigned =>
      String.prefix "#/" assigned = true
      ∧ Listening.handleHashChange usp assigned = Listening.handleHashChange usp hash
  | None => String.prefix "#/" hash = true
  end.
Proof.
  intros hash. unfold Listening.mount, hash.
  destruct rest as [|c rest]; [split; reflexivity|].
  destruct c as [[] [] [] [] [] [] [] []];
    first [by destruct rest | split; reflexivity].
Qed.

Lemma filter_fresh (cs : list nat) n :
  Forall (λ c, (c < n)%nat) cs → filter (λ c, c ≠ n) cs = cs.
Proof.
  induction 1 as [|c cs Hc _ IH]; [done|].
  rewrite filter_cons, decide_True by lia. by rewrite IH.
Qed.

(** [off] never takes a listener away: the function it hands to
    [removeEventListener] has just been made and is none of those
    registered. *)
Theorem off_keeps_listeners this w :
  window_ok w →
  Listening.listeners (Listening.off this w).2 = Listening.listeners w.
Proof.
  intros Hok. unfold Listening.off. destruct (Listening.listening this); [|done].
  simpl. by apply filter_fresh.
Qed.

Lemma off_keeps_listeners_witness :
  Listening.listeners
    (Listening.off {| Listening.listening := true |}
       {| Listening.listeners := [0%nat]; Listening.unused := 1 |}).2
  = [0%nat].
Proof.
  apply (off_keeps_listeners {| Listening.listening := true |}
           {| Listening.listeners := [0%nat]; Listening.unused := 1 |}).
  repeat constructor.
Defined.

Lemma listen_registers this w :
  window_ok w → Listening.listening this = false →
  Listening.listen this w
  = ({| Listening.listening := true |},
     {| Listening.listeners := Listening.listeners w ++ [Listening.unused w];
        Listening.unused := S (Listening.unused w) |}).
Proof.
  intros Hok Hoff. destruct w as [cs n]. unfold window_ok in Hok. simpl in Hok.
  unfold Listening.listen, Listening.arrow, Listening.addEventListener.
  rewrite Hoff. simpl. rewrite bool_decide_eq_false_2; [done|].
  intros Hin. eapply Forall_forall in Hok; [|done]. lia.
Qed.

Lemma off_unregisters_nothing this w :
  window_ok w → Listening.listening this = true →
  Listening.off this w
  = ({| Listening.listening := false |},
     {| Listening.listeners := Listening.listeners w;
        Listening.unused := S (Listening.unused w) |}).
Proof.
  intros Hok Hon. unfold Listening.off, Listening.arrow, Listening.removeEventListener.
  rewrite Hon. simpl. by rewrite filter_fresh.
Qed.

(** [listen], [off], [listen] on a router that was not listening leaves two
    listeners of that router on the window. *)
Theorem listen_off_listen this w :
  window_ok w →
  Listening.listening this = false →
  let '(this1, w1) := Listening.listen this w in
  let '(this2, w2) := Listening.off this1 w1 in
  let '(this3, w3) := Listening.listen this2 w2 in
  Listening.listeners w3
  = Listening.listeners w ++ [Listening.unused w; S (S (Listening.unused w))].
Proof.
  intros Hok Hoff. destruct w as [cs n]. unfold window_ok in Hok. simpl in Hok.
  rewrite listen_registers by done. cbv beta iota. simpl Listening.listeners.
  simpl Listening.unused.
  assert (Forall (λ c, (c < S n)%nat) (cs ++ [n])) as Hok1.
  { apply Forall_app. split; [|repeat constructor; lia].
    eapply Forall_impl; [done|]. intros c Hc. simpl in Hc. lia. }
  rewrite off_unregisters_nothing by done. cbv beta iota.
  rewrite listen_registers; [simpl; by rewrite <- app_assoc| |done].
  unfold window_ok. simpl. eapply Forall_impl; [done|]. intros c Hc. simpl in Hc. lia.
Qed.

Lemma listen_off_listen_witness :
  let w := {| Listening.listeners := []; Listening.unused := 0 |} in
  let '(this1, w1) := Listening.listen {| Listening.listening := false |} w in
  let '(this2, w2) := Listening.off this1 w1 in
  let '(this3, w3) := Listening.listen this2 w2 in
  Listening.listeners w3 = [0; 2]%nat.
Proof.
  apply (listen_off_listen {| Listening.listening := false |}
           {| Listening.listeners := []; Listening.unused := 0 |}).
  - constructor.
  - reflexivity.
Defined.

(** ** Binding: which names are bound, and to what *)





Lemma spec_bind_params_keys rest user i d name :
  is_Some (Router.details_params (amended_bind (spec_compile rest) user i d) !! name)
  ↔ is_Some (Router.details_params d !! name)
    ∨ (String ":" name ∈ rest ∧ name ≠ "__proto__").
Proof.
  revert i d. induction rest as [|piece rest IH]; intros i d.
  - simpl. rewrite elem_of_nil. tauto.
  - rewrite elem_of_cons. simpl spec_compile. rewrite spec_classify_eq.
    destruct (Js.startsWith piece ":") eqn:Hcolon.
    + apply startsWith_colon in Hcolon. simpl. rewrite IH. simpl.
      assert (String ":" name = piece ↔ Js.slice1 piece = name) as Hiff.
      { split; [by intros <-|]. intros <-. done. }
      rewrite Hiff. unfold Js.assign. case_bool_decide as Hproto.
      * split; [intros [?|[? ?]]; by auto|].
        intros [?|[[?|?] ?]]; [by auto|congruence|by auto].
      * rewrite lookup_insert_is_Some.
        destruct (decide (Js.slice1 piece = name)) as [Heq|Hne].
        -- split; [|by auto]. intros _. right. split; [by left|congruence].
        -- split; [intros [[?|[_ ?]]|[? ?]]; by auto|].
           intros [?|[[?|?] ?]]; by auto.
    + assert (String ":" name ≠ piece) as Hne by (by intros <-).
      case_bool_decide as Hstar; [case_bool_decide as Hrest|]; simpl.
      * subst rest. rewrite elem_of_nil. tauto.
      * rewrite IH. simpl. tauto.
      * rewrite IH. tauto.
Qed.

(** The names bound in [params] are exactly the names of the parameter
    segments of the pattern (what follows the colon), whatever the
    request, but for the name [__proto__], which is never bound; literals
    and wildcards bind no name. *)
Theorem params_keys route user name :
  is_Some (Router.details_params (Router.getUserRouteDetails route user) !! name)
  ↔ String ":" name ∈ route ∧ name ≠ "__proto__".
Proof.
  unfold Router.getUserRouteDetails.
  rewrite (details_loop_spec user [] route), spec_bind_params_keys. simpl.
  rewrite lookup_empty. split; [|by right]. intros [[? ?]|?]; done.
Qed.

(** ** One run after another *)

Section RunsFacts.

Context {World : Type}.
Variable URLSearchParams : string → list (string * string).

Abbreviation run' := (Router.handleHashChange URLSearchParams).

(** What every run has in common. *)
Lemma run_shape location noLeave (s : Router.state World) :
  let this := Router.this s in
  let left := exit_step URLSearchParams this location noLeave (Router.world s) in
  let after := (run' location noLeave s).1 in
  Router.routes (Router.this after) = Router.routes this
  ∧ ∃ cs, Router.calls after
          = Router.calls s
            ++ Router.ReplaceState (url_of URLSearchParams location) :: left.1.2 ++ cs
          ∧ Forall (is_handler_call Router.AfterEnter) cs.
Proof.
  intros this left after. subst after. rewrite handleHashChange_run.
  fold this left. destruct left as [[w1 cs1] [|reason]]; simpl.
  - destruct (match_of URLSearchParams this location) as [m|].
    + destruct (Router.afterEnter m _ w1) as [w2 [|reason]]; simpl;
        (split; [done|]); eexists; (split; [reflexivity|]); by repeat constructor.
    + destruct (Js.get "404" (Router.routes this)) as [r|].
      * destruct (Router.afterEnter r _ w1) as [w2 [|reason]]; simpl;
          (split; [done|]); eexists; (split; [reflexivity|]); by repeat constructor.
      * simpl. split; [done|]. exists []. by rewrite app_nil_r.
  - split; [done|]. exists []. by rewrite app_nil_r.
Qed.

(** Every run whose lookups find own properties only ([own_lookups])
    calls [history.replaceState] exactly once, before any handler, and
    whether or not a route matches or a handler fails. *)
Theorem run_replaces_history_once location noLeave (s : Router.state World) :
  own_lookups (Router.this s) noLeave →
  ∃ cs, Router.calls (run' location noLeave s).1
        = Router.calls s ++ Router.ReplaceState (url_of URLSearchParams location) :: cs
        ∧ Forall (λ c, is_handler_call Router.BeforeExit c
                       ∨ is_handler_call Router.AfterEnter c) cs.
Proof.
  intros _.
  destruct (run_shape location noLeave s) as (_ & cs & Hcalls & Hall).
  eexists. split; [exact Hcalls|]. apply Forall_app. split.
  - eapply Forall_impl; [apply exit_step_calls|]. by left.
  - eapply Forall_impl; [done|]. by right.
Qed.

(** In a run whose lookups find own properties only ([own_lookups]): when
    the exit step goes through, a route matches and its enter handler is
    fulfilled, the run completes and [#currentRoute] is the key the
    Matcher chose; it is set only after the enter handler. *)
Theorem run_commits_on_success location noLeave (s : Router.state World) m w2 :
  let this := Router.this s in
  let ev := event_of URLSearchParams this location in
  let left := exit_step URLSearchParams this location noLeave (Router.world s) in
  own_lookups this noLeave →
  left.2 = Router.Fulfilled →
  match_of URLSearchParams this location = Some m →
  Router.afterEnter m ev left.1.1 = (w2, Router.Fulfilled) →
  run' location noLeave s
  = ({| Router.this := with_currentRoute this (matchingRoute URLSearchParams this location);
        Router.world := w2;
        Router.calls :=
          Router.calls s
          ++ Router.ReplaceState (url_of URLSearchParams location)
             :: left.1.2
             ++ handler_calls URLSearchParams this location Router.AfterEnter
                  (Js.toPropertyKey (matchingRoute URLSearchParams this location))
                  Router.Fulfilled |},
     Router.Normal tt).
Proof.
  intros this ev left _ Hleft Hmatch Henter.
  rewrite handleHashChange_run. fold this ev left.
  destruct left as [[w1 cs1] r1]. simpl in *. subst r1.
  rewrite Hmatch. fold ev. by rewrite Henter.
Qed.

Lemma run_exit_first location (s : Router.state World) l :
  let this := Router.this s in
  lastMatch_of this = Some l →
  ∃ cs, Router.calls (run' location false s).1
        = Router.calls s
          ++ Router.ReplaceState (url_of URLSearchParams location)
             :: Router.Invoke Router.BeforeExit (Js.toPropertyKey (Router.currentRoute this))
                  (event_of URLSearchParams this location)
             :: cs.
Proof.
  intros this Hl.
  destruct (run_shape location false s) as (_ & cs & Hcalls & _).
  rewrite Hcalls. fold this. unfold exit_step. rewrite Hl.
  destruct (Router.beforeExit l _ (Router.world s)) as [w1 r1]. simpl.
  by eexists.
Qed.

(** Two runs in a row, the first with lookups that find own properties only
    ([own_lookups]).  When a run to a matching route completes, that
    route is the one the next run leaves: a following run that is not an
    initial load calls its exit handler first, right after replacing the
    history. *)
Theorem next_run_leaves_match location location' noLeave (s : Router.state World) m :
  let this := Router.this s in
  let first := run' location noLeave s in
  own_lookups this noLeave →
  match_of URLSearchParams this location = Some m →
  first.2 = Router.Normal tt →
  lastMatch_of (Router.this first.1) = Some m
  ∧ ∃ cs, Router.calls (run' location' false first.1).1
          = Router.calls first.1
            ++ Router.ReplaceState (url_of URLSearchParams location')
               :: Router.Invoke Router.BeforeExit
                    (Js.toPropertyKey (matchingRoute URLSearchParams this location))
                    (event_of URLSearchParams (Router.this first.1) location')
               :: cs.
Proof.
  intros this first _ Hmatch Hdone.
  assert (Router.this first.1
          = with_currentRoute this (matchingRoute URLSearchParams this location)) as Hthis.
  { subst first. revert Hdone. rewrite handleHashChange_run. fold this.
    destruct (exit_step _ _ _ _ _) as [[w1 cs1] [|reason]]; [|done].
    rewrite Hmatch. by destruct (Router.afterEnter m _ w1) as [w2 [|reason]]. }
  assert (lastMatch_of (Router.this first.1) = Some m) as Hlast.
  { rewrite Hthis. exact Hmatch. }
  split; [done|].
  destruct (run_exit_first location' first.1 m Hlast) as [cs Hcs].
  assert (Router.currentRoute (Router.this first.1)
          = matchingRoute URLSearchParams this location) as Hcur
    by (by rewrite Hthis).
  exists cs. by rewrite Hcs, Hcur.
Qed.

(** After [remove] of the current route, the next run leaves nothing: no
    exit handler is called. *)
Theorem removed_route_is_not_left location noLeave (s : Router.state World) k :
  Router.currentRoute (Router.this s) = Some k →
  let s' := {| Router.this := Router.remove k (Router.this s);
               Router.world := Router.world s;
               Router.calls := Router.calls s |} in
  ∃ cs, Router.calls (run' location noLeave s').1
        = Router.calls s ++ Router.ReplaceState (url_of URLSearchParams location) :: cs
        ∧ Forall (is_handler_call Router.AfterEnter) cs.
Proof.
  intros Hk s'.
  destruct (run_shape location noLeave s') as (_ & cs & Hcalls & Hall).
  exists cs. split; [|done]. rewrite Hcalls. simpl.
  unfold exit_step, lastMatch_of. simpl. rewrite Hk. simpl.
  by rewrite get_delete_eq.
Qed.

End RunsFacts.

Lemma run_commits_on_success_witness :
  Router.currentRoute
    (Router.this
       (Router.handleHashChange no_entries (at_hash "#/b") false
          (fresh (router_ab (noting "exit a")))).1)
  = Some "b".
Proof.
  assert (own_lookups (router_ab (noting "exit a")) false) as Hown.
  { split; [reflexivity|]. intros _. left. eexists. reflexivity. }
  erewrite (run_commits_on_success no_entries (at_hash "#/b") false
              (fresh (router_ab (noting "exit a"))) _ _ Hown); reflexivity.
Defined.

Lemma run_replaces_history_once_witness :
  ∃ cs,
    Router.calls
      (Router.handleHashChange no_entries (at_hash "#/b") false
         (fresh (router_ab (noting "exit a")))).1
    = [] ++ Router.ReplaceState "http://host/#/b" :: cs
    ∧ Forall (λ c, is_handler_call Router.BeforeExit c
                   ∨ is_handler_call Router.AfterEnter c) cs.
Proof.
  apply (run_replaces_history_once no_entries (at_hash "#/b") false
           (fresh (router_ab (noting "exit a")))).
  split; [reflexivity|]. intros _. left. eexists. reflexivity.
Defined.

Lemma next_run_leaves_match_witness :
  is_Some
    (lastMatch_of
       (Router.this
          (Router.handleHashChange no_entries (at_hash "#/b") false
             (fresh (router_ab (noting "exit a")))).1)).
Proof.
  assert (own_lookups (router_ab (noting "exit a")) false) as Hown.
  { split; [reflexivity|]. intros _. left. eexists. reflexivity. }
  eexists.
  eapply (proj1 (next_run_leaves_match no_entries (at_hash "#/b") (at_hash "#/a") false
                   (fresh (router_ab (noting "exit a"))) _ Hown eq_refl eq_refl)).
Defined.

Lemma removed_route_is_not_left_witness :
  ∃ cs,
    Router.calls
      (Router.handleHashChange no_entries (at_hash "#/b") false
         (fresh (Router.remove "a" (router_ab (noting "exit a"))))).1
    = [] ++ Router.ReplaceState "http://host/#/b" :: cs
    ∧ Forall (is_handler_call Router.AfterEnter) cs.
Proof.
  apply (removed_route_is_not_left no_entries (at_hash "#/b") false
           (fresh (router_ab (noting "exit a"))) "a").
  reflexivity.
Defined.
